(** * O&M portfolio tracker: fee calculator, portfolio aggregator, CM-days reconciler

    A shallow embedding of [src/lib/calculations.ts] and of the record types of
    [src/types/index.ts], followed by the properties of the calculation layer.

    - JavaScript numbers are IEEE 754 binary64 values: the kernel's primitive
      floats, whose operations round exactly as the JavaScript ones do.
    - [Date] time values are integral numbers of milliseconds: [Z], with [None]
      for the time value of an invalid date (NaN).
    - A property access on [undefined] throws: functions that can reach one
      return an [outcome].
    - The two ambient inputs of the reconciler, the clock ([new Date()]) and the
      local time zone adjustment of the host, are explicit parameters. *)

From stdpp Require Import gmap strings list.
From Stdlib Require Import Floats ZArith Lia Ascii DecimalString DecimalPos DecimalZ.

Set Warnings "-inexact-float".
Local Open Scope bool_scope.

(** ** ECMAScript values and built-ins used by the program *)

Module JS.

(** Result of an evaluation that may throw. *)
Inductive outcome (A : Type) : Type :=
| Return (a : A)
| TypeError.
Arguments Return {A} a.
Arguments TypeError {A}.

Definition bind {A B : Type} (m : outcome A) (k : A -> outcome B) : outcome B :=
  match m with
  | Return a => k a
  | TypeError => TypeError
  end.

(** [o.f] where [o] may be [undefined] ([None]). *)
Definition member {O A : Type} (o : option O) (f : O -> A) : outcome A :=
  match o with
  | Some x => Return (f x)
  | None => TypeError
  end.

(** [a || b] on values that are objects or [undefined]. *)
Definition orElse {A : Type} (a b : option A) : option A :=
  match a with
  | Some x => Some x
  | None => b
  end.

Definition isNaN (x : float) : bool := negb (x =? x)%float.

(** ToBoolean on a number: [0], [-0] and [NaN] are falsy. *)
Definition truthy (x : float) : bool := negb (x =? 0)%float && negb (isNaN x).

(** ToNumber on the value of a numeric property that may be missing:
    reading a missing property gives [undefined], and
    ToNumber(undefined) is NaN. *)
Definition ToNumber (v : option float) : float :=
  match v with
  | Some x => x
  | None => nan
  end.

(** Every binary64 value of magnitude at least 2^52 is integral. *)
Definition two52 : float := 4503599627370496%float.

(** [Math.floor]. Below 2^52, adding and subtracting 2^52 rounds to the
    nearest integer, which is then corrected downwards. *)
Definition Math_floor (x : float) : float :=
  if isNaN x then x
  else if (two52 <=? abs x)%float then x
  else if (x =? 0)%float then x
  else if (0 <? x)%float then
    let t := ((x + two52) - two52)%float in
    if (x <? t)%float then (t - 1)%float else t
  else
    let a := (- x)%float in
    let t := ((a + two52) - two52)%float in
    (- (if (t <? a)%float then t + 1 else t))%float.

(** [Math.round]: the integral number closest to [x]; of two equally close
    ones, the one closer to +infinity; [-0] for [-0.5 <= x < 0]. *)
Definition Math_round (x : float) : float :=
  if isNaN x then x
  else if (two52 <=? abs x)%float then x
  else if (x =? 0)%float then x
  else
    let f := Math_floor x in
    let r := if (x - f <? 0.5)%float then f else (f + 1)%float in
    if (r =? 0)%float && (x <? 0)%float then (- 0)%float else r.

(** [arr.reduce((sum, s) => sum + f(s), 0)]. *)
Definition sumBy {A : Type} (f : A -> float) (arr : list A) : float :=
  fold_left (fun sum s => (sum + f s)%float) arr 0%float.

(** [arr.length] as a number. *)
Definition lengthNum {A : Type} (arr : list A) : float :=
  PrimFloat.of_uint63 (Uint63.of_Z (Z.of_nat (length arr))).

End JS.

Import JS.

Notation "'let!' x ':=' e 'in' k" := (JS.bind e (fun x => k))
  (at level 10, x name, e at level 100, k at level 200).

(** ** Record types ([src/types/index.ts]) *)

Inductive ContractStatus := Yes | No.
Inductive SiteType := Rooftop | GroundMount.

Definition ContractStatus_eqb (a b : ContractStatus) : bool :=
  match a, b with
  | Yes, Yes | No, No => true
  | _, _ => false
  end.

Module RateTier.
Record t := mk {
  id : string;
  tierName : string;
  minCapacityMW : float;
  maxCapacityMW : option float;   (* number | null *)
  ratePerKwp : float
}.
End RateTier.

Module Site.
Record t := mk {
  id : string;
  name : string;
  systemSizeKwp : float;
  siteType : SiteType;
  contractStatus : ContractStatus;
  onboardDate : option string;    (* string | null *)
  pmCost : float;
  cctvCost : float;
  cleaningCost : float;
  spvId : option string;
  spvCode : option string;
  sourceSheet : option string;
  sourceRow : option float;
  createdAt : string;
  updatedAt : string
}.
End Site.

Module SiteWithCalculations.
(** [interface SiteWithCalculations extends Site]. *)
Record t := mk {
  id : string;
  name : string;
  systemSizeKwp : float;
  siteType : SiteType;
  contractStatus : ContractStatus;
  onboardDate : option string;
  pmCost : float;
  cctvCost : float;
  cleaningCost : float;
  spvId : option string;
  spvCode : option string;
  sourceSheet : option string;
  sourceRow : option float;
  createdAt : string;
  updatedAt : string;
  siteFixedCosts : float;
  portfolioCost_20MW : float;
  portfolioCost_30MW : float;
  portfolioCost_40MW : float;
  fixedFee_20MW : float;
  fixedFee_30MW : float;
  fixedFee_40MW : float;
  feePerKwp_20MW : float;
  feePerKwp_30MW : float;
  feePerKwp_40MW : float;
  monthlyFee : float
}.
End SiteWithCalculations.

Module PortfolioSummary.
Record t := mk {
  totalSites : float;
  contractedSites : float;
  totalCapacityKwp : float;
  contractedCapacityKwp : float;
  currentTier : string;
  totalMonthlyFee : float;
  correctiveDaysAllowed : float;
  sitesBySpv : gmap string float
}.
End PortfolioSummary.

Module CMDaysUsage.
Record t := mk {
  id : string;
  yearMonth : string;
  daysUsed : float;
  notes : option string;
  createdAt : string;
  updatedAt : string
}.
End CMDaysUsage.

Module CMDaysMonthData.
Record t := mk {
  yearMonth : string;
  daysAccumulated : float;
  daysUsed : float;
  daysRemaining : float;
  cumulativeAccumulated : float;
  cumulativeUsed : float;
  cumulativeRemaining : float
}.
End CMDaysMonthData.

Module CMDaysTrackingSummary.
Record t := mk {
  portfolioStartDate : option string;
  monthlyData : list CMDaysMonthData.t;
  totalAccumulated : float;
  totalUsed : float;
  totalRemaining : float
}.
End CMDaysTrackingSummary.

(** ** Tier table and site fee calculator *)

Definition DEFAULT_RATE_TIERS : list RateTier.t :=
  [ RateTier.mk "1" "<20MW" 0 (Some 20%float) 2.0;
    RateTier.mk "2" "20-30MW" 20 (Some 30%float) 1.8;
    RateTier.mk "3" "30-40MW" 30 (Some 40%float) 1.7 ].

Definition calculateSiteFixedCosts (site : Site.t) : float :=
  (Site.pmCost site + Site.cctvCost site + Site.cleaningCost site)%float.

Definition calculatePortfolioCost (systemSizeKwp ratePerKwp : float) : float :=
  (systemSizeKwp * ratePerKwp)%float.

Definition calculateFixedFee (siteFixedCosts portfolioCost : float) : float :=
  (siteFixedCosts + portfolioCost)%float.

Definition calculateFeePerKwp (fixedFee systemSizeKwp : float) (isContracted : bool) : float :=
  if negb isContracted || (systemSizeKwp =? 0)%float then 0%float
  else (fixedFee / systemSizeKwp)%float.

Definition calculateMonthlyFee (fixedFee : float) : float :=
  (fixedFee / 12)%float.

(** The test of the [for] loop of [determinePortfolioTier]. *)
Definition tierAccepts (totalCapacityMW : float) (tier : RateTier.t) : bool :=
  match RateTier.maxCapacityMW tier with
  | None => true
  | Some maxMW => (totalCapacityMW <? maxMW)%float
  end.

(** The loop over the tiers left to visit; [tiers] is the whole table, read
    by the statement after the loop. [tiers[-1]] is [undefined]. *)
Fixpoint determinePortfolioTier_from (totalCapacityMW : float)
    (rest tiers : list RateTier.t) : option RateTier.t :=
  match rest with
  | [] => match tiers with
          | [] => None
          | _ => tiers !! (length tiers - 1)%nat
          end
  | tier :: rest' =>
      if tierAccepts totalCapacityMW tier then Some tier
      else determinePortfolioTier_from totalCapacityMW rest' tiers
  end.

Definition determinePortfolioTier (totalCapacityMW : float)
    (tiers : list RateTier.t) : option RateTier.t :=
  determinePortfolioTier_from totalCapacityMW tiers tiers.

Definition findTierNamed (nm : string) (tiers : list RateTier.t) : option RateTier.t :=
  find (fun t => String.eqb (RateTier.tierName t) nm) tiers.

Definition calculateSiteWithAllTiers (site : Site.t) (tiers : list RateTier.t)
    : outcome SiteWithCalculations.t :=
  let siteFixedCosts := calculateSiteFixedCosts site in
  let isContracted := ContractStatus_eqb (Site.contractStatus site) Yes in
  let tier20MW := orElse (findTierNamed "<20MW" tiers) (tiers !! 0%nat) in
  let tier30MW := orElse (findTierNamed "20-30MW" tiers) (tiers !! 1%nat) in
  let tier40MW := orElse (findTierNamed "30-40MW" tiers) (tiers !! 2%nat) in
  let! rate20 := member tier20MW RateTier.ratePerKwp in
  let portfolioCost_20MW := calculatePortfolioCost (Site.systemSizeKwp site) rate20 in
  let! rate30 := member tier30MW RateTier.ratePerKwp in
  let portfolioCost_30MW := calculatePortfolioCost (Site.systemSizeKwp site) rate30 in
  let! rate40 := member tier40MW RateTier.ratePerKwp in
  let portfolioCost_40MW := calculatePortfolioCost (Site.systemSizeKwp site) rate40 in
  let fixedFee_20MW := calculateFixedFee siteFixedCosts portfolioCost_20MW in
  let fixedFee_30MW := calculateFixedFee siteFixedCosts portfolioCost_30MW in
  let fixedFee_40MW := calculateFixedFee siteFixedCosts portfolioCost_40MW in
  let feePerKwp_20MW := calculateFeePerKwp fixedFee_20MW (Site.systemSizeKwp site) isContracted in
  let feePerKwp_30MW := calculateFeePerKwp fixedFee_30MW (Site.systemSizeKwp site) isContracted in
  let feePerKwp_40MW := calculateFeePerKwp fixedFee_40MW (Site.systemSizeKwp site) isContracted in
  let monthlyFee := if isContracted then calculateMonthlyFee fixedFee_20MW else 0%float in
  Return
    (SiteWithCalculations.mk
       (Site.id site) (Site.name site) (Site.systemSizeKwp site) (Site.siteType site)
       (Site.contractStatus site) (Site.onboardDate site)
       (Site.pmCost site) (Site.cctvCost site) (Site.cleaningCost site)
       (Site.spvId site) (Site.spvCode site) (Site.sourceSheet site) (Site.sourceRow site)
       (Site.createdAt site) (Site.updatedAt site)
       siteFixedCosts
       portfolioCost_20MW portfolioCost_30MW portfolioCost_40MW
       fixedFee_20MW fixedFee_30MW fixedFee_40MW
       feePerKwp_20MW feePerKwp_30MW feePerKwp_40MW
       monthlyFee).

(** ** ECMAScript dates

    Time values are milliseconds since the epoch in UTC. The day and month
    arithmetic is that of the ECMAScript specification (Day, DayFromYear,
    MakeDay, ...). The host's local time zone adjustment [tza] (milliseconds
    east of UTC) is taken constant over time. *)

Module JSDate.
Local Open Scope Z_scope.

Definition msPerDay : Z := 86400000.
Definition msPerMinute : Z := 60000.
Definition msPerHour : Z := 3600000.

Definition Day (t : Z) : Z := t / msPerDay.
Definition TimeWithinDay (t : Z) : Z := t mod msPerDay.

Definition isLeapYear (y : Z) : bool :=
  (y mod 4 =? 0) && (negb (y mod 100 =? 0) || (y mod 400 =? 0)).

Definition DaysInYear (y : Z) : Z := if isLeapYear y then 366 else 365.

Definition DayFromYear (y : Z) : Z :=
  365 * (y - 1970) + (y - 1969) / 4 - (y - 1901) / 100 + (y - 1601) / 400.

(** The largest [y] with [DayFromYear y <= Day t]: an estimate from the mean
    length of a year, corrected by at most one year. *)
Definition YearFromTime (t : Z) : Z :=
  let d := Day t in
  let y0 := 1970 + (400 * d) / 146097 in
  if DayFromYear (y0 + 1) <=? d then y0 + 1
  else if DayFromYear y0 <=? d then y0
  else y0 - 1.

Definition DayWithinYear (t : Z) : Z := Day t - DayFromYear (YearFromTime t).

(** Day within the year on which month [m] (0 = January) starts. *)
Definition monthStart (m : Z) (leap : bool) : Z :=
  let l := if leap then 1 else 0 in
  match m with
  | 0 => 0
  | 1 => 31
  | 2 => 59 + l
  | 3 => 90 + l
  | 4 => 120 + l
  | 5 => 151 + l
  | 6 => 181 + l
  | 7 => 212 + l
  | 8 => 243 + l
  | 9 => 273 + l
  | 10 => 304 + l
  | _ => 334 + l
  end.

Definition MonthFromTime (t : Z) : Z :=
  let d := DayWithinYear t in
  let leap := isLeapYear (YearFromTime t) in
  if d <? monthStart 1 leap then 0
  else if d <? monthStart 2 leap then 1
  else if d <? monthStart 3 leap then 2
  else if d <? monthStart 4 leap then 3
  else if d <? monthStart 5 leap then 4
  else if d <? monthStart 6 leap then 5
  else if d <? monthStart 7 leap then 6
  else if d <? monthStart 8 leap then 7
  else if d <? monthStart 9 leap then 8
  else if d <? monthStart 10 leap then 9
  else if d <? monthStart 11 leap then 10
  else 11.

Definition DateFromTime (t : Z) : Z :=
  DayWithinYear t - monthStart (MonthFromTime t) (isLeapYear (YearFromTime t)) + 1.

Definition MakeDay (year month date : Z) : Z :=
  let ym := year + month / 12 in
  let mn := month mod 12 in
  DayFromYear ym + monthStart mn (isLeapYear ym) + date - 1.

Definition MakeTime (hour min sec ms : Z) : Z :=
  hour * msPerHour + min * msPerMinute + sec * 1000 + ms.

Definition MakeDate (day time : Z) : Z := day * msPerDay + time.

(** A time value outside +-8.64e15 ms is NaN. *)
Definition TimeClip (t : Z) : option Z :=
  if Z.abs t <=? 8640000000000000 then Some t else None.

(** Number of days of month [month] (1 = January) of [year]. *)
Definition daysInMonth (year month : Z) : Z :=
  match month with
  | 2 => if isLeapYear year then 29 else 28
  | 4 | 6 | 9 | 11 => 30
  | _ => 31
  end.

Section Host.
Variable tza : Z.

Definition LocalTime (t : Z) : Z := t + tza.
Definition UTC (t : Z) : Z := t - tza.

(** [new Date(year, month, date)]; a NaN argument gives an invalid date,
    and a year from 0 to 99 means 1900 + year. *)
Definition construct (year month date : option Z) : option Z :=
  match year, month, date with
  | Some y, Some m, Some dt =>
      let yr := if (0 <=? y) && (y <=? 99) then 1900 + y else y in
      TimeClip (UTC (MakeDate (MakeDay yr m dt) (MakeTime 0 0 0 0)))
  | _, _, _ => None
  end.

(** [d.setDate(date)] on the time value of [d]. *)
Definition setDate (tv : option Z) (date : Z) : option Z :=
  match tv with
  | None => None
  | Some t0 =>
      let t := LocalTime t0 in
      TimeClip (UTC (MakeDate (MakeDay (YearFromTime t) (MonthFromTime t) date)
                              (TimeWithinDay t)))
  end.

(** [d.setMonth(month)]. *)
Definition setMonth (tv : option Z) (month : option Z) : option Z :=
  match tv, month with
  | Some t0, Some m =>
      let t := LocalTime t0 in
      TimeClip (UTC (MakeDate (MakeDay (YearFromTime t) m (DateFromTime t))
                              (TimeWithinDay t)))
  | _, _ => None
  end.

(** [d.getFullYear()] and [d.getMonth()]; NaN ([None]) on an invalid date. *)
Definition getFullYear (tv : option Z) : option Z :=
  option_map (fun t => YearFromTime (LocalTime t)) tv.

Definition getMonth (tv : option Z) : option Z :=
  option_map (fun t => MonthFromTime (LocalTime t)) tv.
End Host.

(** [a <= b] on two dates: the comparison of their time values, false when
    either is NaN. *)
Definition le (a b : option Z) : bool :=
  match a, b with
  | Some x, Some y => x <=? y
  | _, _ => false
  end.

End JSDate.

(** ** Strings read and written by the reconciler *)

Module JSString.
Local Open Scope Z_scope.

(** ToBoolean on [string | null]: [null] and the empty string are falsy. *)
Definition truthy (s : option string) : bool :=
  match s with
  | None => false
  | Some s' => negb (String.eqb s' "")
  end.

Definition digitVal (c : ascii) : option Z :=
  let n := Z.of_nat (nat_of_ascii c) in
  if (48 <=? n) && (n <=? 57) then Some (n - 48) else None.

(** Reads exactly [n] decimal digits. *)
Fixpoint takeDigits (n : nat) (acc : Z) (s : string) : option (Z * string) :=
  match n with
  | O => Some (acc, s)
  | S n' =>
      match s with
      | String c s' =>
          match digitVal c with
          | Some d => takeDigits n' (10 * acc + d) s'
          | None => None
          end
      | EmptyString => None
      end
  end.

Definition expect (c : ascii) (s : string) : option string :=
  match s with
  | String c' s' => if Ascii.eqb c c' then Some s' else None
  | EmptyString => None
  end.

(** [s.split(sep)] for a one-character separator. *)
Fixpoint split (sep : ascii) (s : string) : list string :=
  match s with
  | EmptyString => [EmptyString]
  | String c s' =>
      if Ascii.eqb c sep then EmptyString :: split sep s'
      else match split sep s' with
           | h :: t => String c h :: t
           | [] => [String c EmptyString]
           end
  end.

(** [Number(s)] on the pieces of a year-month key: the empty string is 0 and
    a run of decimal digits is its value. The other numeric literals of
    ECMAScript (signs, fractions, exponents, radix prefixes, surrounding white
    space) do not occur in keys of the form YYYY-MM and are taken as NaN
    ([None]). *)
Definition Number (s : string) : option Z :=
  if String.eqb s "" then Some 0
  else option_map Z.of_uint (NilEmpty.uint_of_string s).

(** [String(n)] for an integral number. *)
Definition ofInteger (n : Z) : string := NilZero.string_of_int (Z.to_int n).

(** [s.padStart(2, '0')]. *)
Definition padStart2 (s : string) : string :=
  match s with
  | EmptyString => "00"
  | String c EmptyString => String "0" (String c EmptyString)
  | _ => s
  end.

(** The optional [:ss] and [.sss] of an ISO time, then its zone: none (local
    time) or [Z]. Returns seconds, milliseconds and whether the time is UTC. *)
Definition parseSecondsZone (s : string) : option (Z * Z * bool) :=
  '(sec, s1) ← match expect ":" s with
               | Some s' => takeDigits 2 0 s'
               | None => Some (0, s)
               end;
  '(ms, s2) ← match expect "." s1 with
              | Some s' => takeDigits 3 0 s'
              | None => Some (0, s1)
              end;
  if String.eqb s2 "" then Some (sec, ms, false)
  else if String.eqb s2 "Z" then Some (sec, ms, true)
  else None.

Definition inRange (lo x hi : Z) : bool := (lo <=? x) && (x <=? hi).

(** [new Date(s)] for the ECMAScript date-time string format: [YYYY],
    [YYYY-MM] and [YYYY-MM-DD] are UTC; with a time ([THH:mm], [THH:mm:ss],
    [THH:mm:ss.sss]) the value is local time unless [Z] follows. Strings of
    any other shape are parsed as each engine sees fit and are taken as
    invalid here. *)
Definition parseDate (tza : Z) (s : string) : option Z :=
  '(y, s1) ← takeDigits 4 0 s;
  if String.eqb s1 "" then JSDate.TimeClip (JSDate.MakeDate (JSDate.MakeDay y 0 1) 0)
  else
    s2 ← expect "-" s1;
    '(m, s3) ← takeDigits 2 0 s2;
    if negb (inRange 1 m 12) then None
    else if String.eqb s3 "" then
      JSDate.TimeClip (JSDate.MakeDate (JSDate.MakeDay y (m - 1) 1) 0)
    else
      s4 ← expect "-" s3;
      '(d, s5) ← takeDigits 2 0 s4;
      if negb (inRange 1 d 31) then None
      else if String.eqb s5 "" then
        JSDate.TimeClip (JSDate.MakeDate (JSDate.MakeDay y (m - 1) d) 0)
      else
        s6 ← expect "T" s5;
        '(hh, s7) ← takeDigits 2 0 s6;
        s8 ← expect ":" s7;
        '(mm, s9) ← takeDigits 2 0 s8;
        '(sec, ms, utc) ← parseSecondsZone s9;
        if negb (inRange 0 hh 23 && inRange 0 mm 59 && inRange 0 sec 59) then None
        else
          let t := JSDate.MakeDate (JSDate.MakeDay y (m - 1) d)
                                   (JSDate.MakeTime hh mm sec ms) in
          JSDate.TimeClip (match utc with true => t | false => JSDate.UTC tza t end).

End JSString.

(** ** Portfolio aggregator *)

(** [Math.round(x * 10) / 10]. *)
Definition round1 (x : float) : float := (Math_round (x * 10) / 10)%float.

Definition calculateMonthlyCorrectiveDays (capacityMW : float) : float :=
  (Math_round ((capacityMW / 12) * 10) / 10)%float.

Definition isContractedSite (s : Site.t) : bool :=
  ContractStatus_eqb (Site.contractStatus s) Yes.

(** [arr.map(f)] where [f] may throw. *)
Fixpoint mapOutcome {A B : Type} (f : A -> outcome B) (arr : list A) : outcome (list B) :=
  match arr with
  | [] => Return []
  | a :: arr' =>
      let! b := f a in
      let! bs := mapOutcome f arr' in
      Return (b :: bs)
  end.

(** [v || 0] for the value of a map entry that may be missing. *)
Definition orZero (v : option float) : float :=
  match v with
  | Some x => if JS.truthy x then x else 0%float
  | None => 0%float
  end.

(** One step of [sites.forEach] filling [sitesBySpv], an object used as a map
    from SPV code to count (its inherited properties are not modelled). *)
Definition countSpv (sitesBySpv : gmap string float) (site : Site.t) : gmap string float :=
  let spv := if JSString.truthy (Site.spvCode site)
             then default "Unassigned" (Site.spvCode site)
             else "Unassigned" in
  <[spv := (orZero (sitesBySpv !! spv) + 1)%float]> sitesBySpv.

Definition calculatePortfolioSummary (sites : list Site.t) : outcome PortfolioSummary.t :=
  let contractedSites := List.filter isContractedSite sites in
  let totalCapacityKwp := sumBy Site.systemSizeKwp sites in
  let contractedCapacityKwp := sumBy Site.systemSizeKwp contractedSites in
  let currentTier := determinePortfolioTier (contractedCapacityKwp / 1000)%float DEFAULT_RATE_TIERS in
  let! sitesWithCalcs :=
    mapOutcome (fun s => calculateSiteWithAllTiers s DEFAULT_RATE_TIERS) contractedSites in
  let totalMonthlyFee := sumBy SiteWithCalculations.monthlyFee sitesWithCalcs in
  let correctiveDaysAllowed := calculateMonthlyCorrectiveDays (contractedCapacityKwp / 1000)%float in
  let sitesBySpv := fold_left countSpv sites ∅ in
  let! currentTierName := member currentTier RateTier.tierName in
  Return
    (PortfolioSummary.mk
       (lengthNum sites)
       (lengthNum contractedSites)
       totalCapacityKwp
       contractedCapacityKwp
       currentTierName
       totalMonthlyFee
       correctiveDaysAllowed
       sitesBySpv).

(** ** CM-days reconciler *)

(** [getTime(a) - getTime(b) <= 0], or the difference is NaN: the comparator
    does not ask for [a] to be moved after [b]. *)
Definition keepsBefore (tza : Z) (a b : string) : bool :=
  match JSString.parseDate tza a, JSString.parseDate tza b with
  | Some ta, Some tb => (ta - tb <=? 0)%Z
  | _, _ => true
  end.

(** [arr.sort(cmp)] as a stable insertion sort. *)
Fixpoint insertSorted (tza : Z) (a : string) (sorted : list string) : list string :=
  match sorted with
  | [] => [a]
  | b :: sorted' =>
      if keepsBefore tza a b then a :: b :: sorted'
      else b :: insertSorted tza a sorted'
  end.

Definition sortDates (tza : Z) (dates : list string) : list string :=
  foldr (insertSorted tza) [] dates.

Definition getPortfolioStartDate (tza : Z) (sites : list Site.t) : option string :=
  let contractedSites :=
    List.filter (fun s => isContractedSite s && JSString.truthy (Site.onboardDate s)) sites in
  if (length contractedSites =? 0)%nat then None
  else
    let sortedDates :=
      sortDates tza (map (fun s => default "" (Site.onboardDate s)) contractedSites) in
    sortedDates !! 0%nat.

(** The [while (start <= now)] loop on the time values of [start] and [now];
    [fuel] bounds the number of iterations. *)
Fixpoint monthsLoop (tza : Z) (fuel : nat) (start now : Z) : list string :=
  match fuel with
  | O => []
  | S fuel' =>
      if (start <=? now)%Z then
        let year := JSDate.YearFromTime (JSDate.LocalTime tza start) in
        let month :=
          JSString.padStart2
            (JSString.ofInteger (JSDate.MonthFromTime (JSDate.LocalTime tza start) + 1)) in
        (JSString.ofInteger year +:+ "-" +:+ month)
          :: match JSDate.setMonth tza (Some start)
                     (Some (JSDate.MonthFromTime (JSDate.LocalTime tza start) + 1)%Z) with
             | Some start' => monthsLoop tza fuel' start' now
             | None => []
             end
      else []
  end.

(** Each iteration moves [start] forward by one month, at least 28 days. *)
Definition monthsFuel (start now : Z) : nat :=
  S (Z.to_nat ((now - start) / (28 * JSDate.msPerDay))).

(** [clock] is the time value of [new Date()]. *)
Definition getMonthsFromStart (tza clock : Z) (startDate : string) : list string :=
  let start := JSString.parseDate tza startDate in
  let now := JSDate.TimeClip clock in
  let start := JSDate.setDate tza start 1 in
  let now := JSDate.setDate tza now 1 in
  match start, now with
  | Some s, Some n => monthsLoop tza (monthsFuel s n) s n
  | _, _ => []
  end.

Definition getContractedCapacityKwpForMonth (tza : Z) (sites : list Site.t)
    (yearMonth : string) : float :=
  let parts := map JSString.Number (JSString.split "-" yearMonth) in
  let year := mjoin (parts !! 0%nat) in
  let month := mjoin (parts !! 1%nat) in
  let endOfMonth := JSDate.construct tza year month (Some 0%Z) in
  sumBy Site.systemSizeKwp
    (List.filter
       (fun s =>
          if negb (isContractedSite s) || negb (JSString.truthy (Site.onboardDate s))
          then false
          else
            let onboardDate := JSString.parseDate tza (default "" (Site.onboardDate s)) in
            JSDate.le onboardDate endOfMonth)
       sites).

(** [new Map(cmDaysUsage.map(u => [u.yearMonth, u.daysUsed]))]: a later entry
    for a key replaces an earlier one. *)
Definition usageMapOf (cmDaysUsage : list CMDaysUsage.t) : gmap string float :=
  fold_left (fun m u => <[CMDaysUsage.yearMonth u := CMDaysUsage.daysUsed u]> m) cmDaysUsage ∅.

(** The two running sums kept across the callback of [months.map]. *)
Record running := mkRunning {
  cumulativeAccumulated : float;
  cumulativeUsed : float
}.

(** The callback of [months.map]: the entry emitted for [yearMonth] and the
    running sums after it. *)
Definition monthStep (tza : Z) (sites : list Site.t) (usageMap : gmap string float)
    (st : running) (yearMonth : string) : CMDaysMonthData.t * running :=
  let capacityMW := (getContractedCapacityKwpForMonth tza sites yearMonth / 1000)%float in
  let daysAccumulated := calculateMonthlyCorrectiveDays capacityMW in
  let daysUsed := orZero (usageMap !! yearMonth) in
  let daysRemaining := (daysAccumulated - daysUsed)%float in
  let cumulativeAccumulated' := (cumulativeAccumulated st + daysAccumulated)%float in
  let cumulativeUsed' := (cumulativeUsed st + daysUsed)%float in
  let cumulativeRemaining := (cumulativeAccumulated' - cumulativeUsed')%float in
  (CMDaysMonthData.mk
     yearMonth
     (Math_round (daysAccumulated * 10) / 10)%float
     daysUsed
     (Math_round (daysRemaining * 10) / 10)%float
     (Math_round (cumulativeAccumulated' * 10) / 10)%float
     (Math_round (cumulativeUsed' * 10) / 10)%float
     (Math_round (cumulativeRemaining * 10) / 10)%float,
   mkRunning cumulativeAccumulated' cumulativeUsed').

(** [months.map(callback)], threading the running sums in array order. *)
Fixpoint mapMonths (tza : Z) (sites : list Site.t) (usageMap : gmap string float)
    (st : running) (months : list string) : list CMDaysMonthData.t * running :=
  match months with
  | [] => ([], st)
  | yearMonth :: months' =>
      let '(entry, st') := monthStep tza sites usageMap st yearMonth in
      let '(entries, st'') := mapMonths tza sites usageMap st' months' in
      (entry :: entries, st'')
  end.

Definition calculateCMDaysTracking (tza clock : Z) (sites : list Site.t)
    (cmDaysUsage : list CMDaysUsage.t) : CMDaysTrackingSummary.t :=
  let portfolioStartDate := getPortfolioStartDate tza sites in
  if negb (JSString.truthy portfolioStartDate) then
    CMDaysTrackingSummary.mk None [] 0 0 0
  else
    let months := getMonthsFromStart tza clock (default "" portfolioStartDate) in
    let usageMap := usageMapOf cmDaysUsage in
    let '(monthlyData, st) := mapMonths tza sites usageMap (mkRunning 0 0) months in
    CMDaysTrackingSummary.mk
      portfolioStartDate
      monthlyData
      (Math_round (cumulativeAccumulated st * 10) / 10)%float
      (Math_round (cumulativeUsed st * 10) / 10)%float
      (Math_round ((cumulativeAccumulated st - cumulativeUsed st) * 10) / 10)%float.

(** ** Definitions used to state the properties *)

(** Division that refuses a zero divisor, and [calculateFeePerKwp] written
    with it: [None] would mean that the function divided by zero. *)
Definition divideNonZero (a b : float) : option float :=
  if (b =? 0)%float then None else Some (a / b)%float.

Definition calculateFeePerKwp_checked (fixedFee systemSizeKwp : float)
    (isContracted : bool) : option float :=
  if negb isContracted || (systemSizeKwp =? 0)%float then Some 0%float
  else divideNonZero fixedFee systemSizeKwp.

(** Tier selection as the specification words it: the first tier in table
    order whose [maxCapacityMW] is null or strictly greater than the capacity,
    and the last tier of the table when there is none. *)
Definition selectTier (capacityMW : float) (tiers : list RateTier.t) : option RateTier.t :=
  match List.find (tierAccepts capacityMW) tiers with
  | Some tier => Some tier
  | None => last tiers
  end.

(** The boundary rule as the specification words it, on the table the
    portfolio summary uses: a contracted capacity equal to the
    [maxCapacityMW] of a tier is not placed in that tier. *)
Definition boundaryExcluded (sites : list Site.t) : Prop :=
  forall summary tier,
    calculatePortfolioSummary sites = Return summary ->
    In tier DEFAULT_RATE_TIERS ->
    RateTier.maxCapacityMW tier
      = Some (PortfolioSummary.contractedCapacityKwp summary / 1000)%float ->
    PortfolioSummary.currentTier summary <> RateTier.tierName tier.

(** The summary's tier as the specification words it for a given tier table:
    the tier selected in that table for the contracted capacity. *)
Definition summaryFollowsTable (tiers : list RateTier.t) (sites : list Site.t) : Prop :=
  forall summary,
    calculatePortfolioSummary sites = Return summary ->
    Some (PortfolioSummary.currentTier summary)
    = option_map RateTier.tierName
        (selectTier (PortfolioSummary.contractedCapacityKwp summary / 1000)%float tiers).

(** [fixedFee(tier)] of the specification. *)
Definition fixedFeeAt (site : Site.t) (tier : RateTier.t) : float :=
  calculateFixedFee (calculateSiteFixedCosts site)
    (calculatePortfolioCost (Site.systemSizeKwp site) (RateTier.ratePerKwp tier)).

(** The monthly fee as the specification words it: priced at the first tier
    of the table. *)
Definition monthlyFeeAtFirstTier (site : Site.t) (tiers : list RateTier.t) : Prop :=
  forall r first,
    calculateSiteWithAllTiers site tiers = Return r ->
    tiers !! 0%nat = Some first ->
    SiteWithCalculations.monthlyFee r
      = if isContractedSite site then (fixedFeeAt site first / 12)%float else 0%float.

(** The tier the calculator prices the monthly fee at. *)
Definition baseTier (tiers : list RateTier.t) : option RateTier.t :=
  orElse (findTierNamed "<20MW" tiers) (tiers !! 0%nat).

(** The accrual and the usage of one month, and the running sums over the
    first [n + 1] months, none of them rounded for display. *)
Definition accrualOf (tza : Z) (sites : list Site.t) (yearMonth : string) : float :=
  calculateMonthlyCorrectiveDays
    (getContractedCapacityKwpForMonth tza sites yearMonth / 1000)%float.

Definition usedOf (cmDaysUsage : list CMDaysUsage.t) (yearMonth : string) : float :=
  orZero (usageMapOf cmDaysUsage !! yearMonth).

(** [f] summed over [months] in order, from 0, as the running sums are. *)
Definition sumOver (f : string -> float) (months : list string) : float :=
  fold_left (fun sum ym => (sum + f ym)%float) months 0%float.

Definition runningAccumulated (tza : Z) (sites : list Site.t) (months : list string)
    (n : nat) : float :=
  sumOver (accrualOf tza sites) (take (S n) months).

Definition runningUsed (cmDaysUsage : list CMDaysUsage.t) (months : list string)
    (n : nat) : float :=
  sumOver (usedOf cmDaysUsage) (take (S n) months).

(** The month keys of a tracking run. *)
Definition trackedMonths (tza clock : Z) (sites : list Site.t) : list string :=
  getMonthsFromStart tza clock (default "" (getPortfolioStartDate tza sites)).

(** Rounding to one decimal place, half away from zero, as the specification
    words it. *)
Definition roundHalfAwayFromZero1 (x : float) : float :=
  if (x <? 0)%float then (- (Math_round (- x * 10) / 10))%float
  else (Math_round (x * 10) / 10)%float.

Definition emitsHalfAwayFromZero (tza clock : Z) (sites : list Site.t)
    (cmDaysUsage : list CMDaysUsage.t) : Prop :=
  forall n entry,
    CMDaysTrackingSummary.monthlyData (calculateCMDaysTracking tza clock sites cmDaysUsage) !! n
      = Some entry ->
    CMDaysMonthData.daysRemaining entry
      = roundHalfAwayFromZero1
          (accrualOf tza sites (CMDaysMonthData.yearMonth entry)
           - usedOf cmDaysUsage (CMDaysMonthData.yearMonth entry))%float.

(** An integer as a number. *)
Definition ofZ (k : Z) : float :=
  if (k <? 0)%Z then (- PrimFloat.of_uint63 (Uint63.of_Z (- k)))%float
  else PrimFloat.of_uint63 (Uint63.of_Z k).

(** [Math.round] sends [k + 0.5] to [k + 1] for every integer [k] of the list. *)
Definition tiesRoundUp (ks : list Z) : bool :=
  forallb (fun k => (Math_round (ofZ k + 0.5) =? ofZ (k + 1))%float) ks.

(** A site record as it can reach the calculator at run time, where the
    types of [src/types/index.ts] are erased: each of the four numeric inputs
    may be missing. *)
Module PartialSite.
Record t := mk {
  id : string;
  name : string;
  systemSizeKwp : option float;
  siteType : SiteType;
  contractStatus : ContractStatus;
  onboardDate : option string;
  pmCost : option float;
  cctvCost : option float;
  cleaningCost : option float;
  spvId : option string;
  spvCode : option string;
  sourceSheet : option string;
  sourceRow : option float;
  createdAt : string;
  updatedAt : string
}.

Definition withNumbers (f : option float -> float) (p : t) : Site.t :=
  Site.mk (id p) (name p) (f (systemSizeKwp p)) (siteType p) (contractStatus p)
    (onboardDate p) (f (pmCost p)) (f (cctvCost p)) (f (cleaningCost p))
    (spvId p) (spvCode p) (sourceSheet p) (sourceRow p) (createdAt p) (updatedAt p).

(** What the calculator reads: [+], [*] and [/] apply ToNumber to the
    [undefined] of a missing property, and [undefined === 0] is false as
    [NaN === 0] is. *)
Definition asRead : t -> Site.t := withNumbers JS.ToNumber.

(** The same record with the missing numeric inputs set to 0. *)
Definition zeroFilled : t -> Site.t := withNumbers (default 0%float).

Definition complete (p : t) : Prop :=
  is_Some (systemSizeKwp p) /\ is_Some (pmCost p) /\ is_Some (cctvCost p)
  /\ is_Some (cleaningCost p).
End PartialSite.

(** The derived fields of a result. *)
Definition derivedFields (r : SiteWithCalculations.t) : list float :=
  [ SiteWithCalculations.siteFixedCosts r;
    SiteWithCalculations.portfolioCost_20MW r;
    SiteWithCalculations.portfolioCost_30MW r;
    SiteWithCalculations.portfolioCost_40MW r;
    SiteWithCalculations.fixedFee_20MW r;
    SiteWithCalculations.fixedFee_30MW r;
    SiteWithCalculations.fixedFee_40MW r;
    SiteWithCalculations.feePerKwp_20MW r;
    SiteWithCalculations.feePerKwp_30MW r;
    SiteWithCalculations.feePerKwp_40MW r;
    SiteWithCalculations.monthlyFee r ].

Definition derivedOutcome (o : outcome SiteWithCalculations.t) : outcome (list float) :=
  let! r := o in Return (derivedFields r).

(** Missing numeric inputs treated as zero, as the specification words it. *)
Definition missingReadAsZero (p : PartialSite.t) (tiers : list RateTier.t) : Prop :=
  derivedOutcome (calculateSiteWithAllTiers (PartialSite.asRead p) tiers)
  = derivedOutcome (calculateSiteWithAllTiers (PartialSite.zeroFilled p) tiers).

Definition isUnbounded (tier : RateTier.t) : bool :=
  match RateTier.maxCapacityMW tier with
  | None => true
  | Some _ => false
  end.

(** Each tier starts below its own bound and below the start of the next. *)
Fixpoint orderedByCapacity (tiers : list RateTier.t) : bool :=
  match tiers with
  | [] => true
  | tier :: rest =>
      match RateTier.maxCapacityMW tier with
      | None => true
      | Some maxMW => (RateTier.minCapacityMW tier <? maxMW)%float
      end
      && match rest with
         | [] => true
         | next :: _ => (RateTier.minCapacityMW tier <? RateTier.minCapacityMW next)%float
         end
      && orderedByCapacity rest
  end.

(** The first tier starts at 0 and each tier starts where the previous ends. *)
Fixpoint startsWhereEnds (from : float) (tiers : list RateTier.t) : bool :=
  match tiers with
  | [] => true
  | tier :: rest =>
      (RateTier.minCapacityMW tier =? from)%float
      && match RateTier.maxCapacityMW tier with
         | Some maxMW => startsWhereEnds maxMW rest
         | None => true
         end
  end.

Definition noGaps (tiers : list RateTier.t) : bool := startsWhereEnds 0%float tiers.

(** The RateTier invariant as the specification words it: tiers ordered by
    increasing capacity, exactly one tier with maxCapacityMW = null, that tier
    last, and no capacity gap. *)
Definition RateTierInvariant (tiers : list RateTier.t) : Prop :=
  orderedByCapacity tiers = true
  /\ length (List.filter isUnbounded tiers) = 1%nat
  /\ option_map isUnbounded (last tiers) = Some true
  /\ noGaps tiers = true.

(** No capacity from 0 upwards reaches the statement after the loop. *)
Definition fallbackUnreachable (tiers : list RateTier.t) : Prop :=
  forall capacityMW : float,
    (0 <=? capacityMW)%float = true -> existsb (tierAccepts capacityMW) tiers = true.

(** The tiers the calculator prices the 20-30MW and 30-40MW columns at. *)
Definition tier30Of (tiers : list RateTier.t) : option RateTier.t :=
  orElse (findTierNamed "20-30MW" tiers) (tiers !! 1%nat).

Definition tier40Of (tiers : list RateTier.t) : option RateTier.t :=
  orElse (findTierNamed "30-40MW" tiers) (tiers !! 2%nat).

(** ** Sample inputs *)

Definition exampleSite : Site.t :=
  Site.mk "s1" "Example" 10000 Rooftop Yes (Some "2024-01-15") 500 100 50
    None None None None "2024-01-01" "2024-01-01".

(** A table whose tier named "<20MW" is not its first tier. *)
Definition reorderedTiers : list RateTier.t :=
  [ RateTier.mk "9" "base" 0 (Some 10%float) 5.0;
    RateTier.mk "1" "<20MW" 10 (Some 20%float) 2.0;
    RateTier.mk "2" "20-30MW" 20 None 1.8 ].

(** A contracted record without [pmCost]. *)
Definition recordWithoutPmCost : PartialSite.t :=
  PartialSite.mk "s2" "Partial" (Some 10000%float) Rooftop Yes (Some "2024-01-15")
    None (Some 100%float) (Some 50%float)
    None None None None "2024-01-01" "2024-01-01".

(** A table of one unbounded tier. *)
Definition flatTable : list RateTier.t :=
  [ RateTier.mk "0" "flat" 0 None 1.5 ].

(** Contracted sites of 15 MW and of 40 MW. *)
Definition site15MW : Site.t :=
  Site.mk "s3" "Fifteen" 15000 GroundMount Yes (Some "2024-02-01") 0 0 0
    None None None None "2024-01-01" "2024-01-01".

Definition site40MW : Site.t :=
  Site.mk "s4" "Forty" 40000 GroundMount Yes (Some "2024-02-01") 0 0 0
    None None None None "2024-01-01" "2024-01-01".

(** 10 April 2024, 12:00 UTC, as a time value. *)
Definition clockApril2024 : Z := 1712750400000.

(** A contracted site too small to accrue a tenth of a day in a month. *)
Definition smallSite : Site.t :=
  Site.mk "s5" "Small" 100 Rooftop Yes (Some "2024-04-02") 0 0 0
    None None None None "2024-04-02" "2024-04-02".

Definition usageInApril (daysUsed : float) : CMDaysUsage.t :=
  CMDaysUsage.mk "u1" "2024-04" daysUsed None "2024-04-09" "2024-04-09".

(** A site that is not contracted, and a contracted one without onboard date. *)
Definition prospectSite : Site.t :=
  Site.mk "s6" "Prospect" 8000 Rooftop No (Some "2024-03-01") 10 10 10
    None None None None "2024-01-01" "2024-01-01".

Definition undatedSite : Site.t :=
  Site.mk "s7" "Undated" 8000 Rooftop Yes None 10 10 10
    None None None None "2024-01-01" "2024-01-01".

(** A contracted site onboarded on the last day of July 2024, by a date-only
    string and by a string with a time of day. *)
Definition siteOnboardedOn (onboardDate : string) : Site.t :=
  Site.mk "s8" "Late" 5000 Rooftop Yes (Some onboardDate) 0 0 0
    None None None None "2024-07-31" "2024-07-31".

(** Local time zone adjustment of a host one hour east of UTC. *)
Definition oneHourEast : Z := 3600000.

(** The key a site is counted under in [sitesBySpv]:
    [site.spvCode || 'Unassigned']. *)
Definition spvLabel (site : Site.t) : string :=
  if JSString.truthy (Site.spvCode site)
  then default "Unassigned" (Site.spvCode site)
  else "Unassigned".

(** The monthly fee of a site at the rate of the "<20MW" tier of the default
    table. *)
Definition baseMonthlyFee (site : Site.t) : float :=
  ((Site.pmCost site + Site.cctvCost site + Site.cleaningCost site
    + Site.systemSizeKwp site * 2.0) / 12)%float.

(** A site of an SPV, and one whose SPV code is the empty string. *)
Definition siteOfSpv (code : option string) : Site.t :=
  Site.mk "s9" "Owned" 2000 Rooftop No None 0 0 0
    (Some "spv-1") code None None "2024-01-01" "2024-01-01".

(** The usage recorded for a month, read off the list of records: the
    [daysUsed] of the last record with that key. *)
Definition lastRecorded (yearMonth : string) (cmDaysUsage : list CMDaysUsage.t)
    : option float :=
  fold_left
    (fun found u =>
       if String.eqb (CMDaysUsage.yearMonth u) yearMonth
       then Some (CMDaysUsage.daysUsed u) else found)
    cmDaysUsage None.

Definition usageFor (yearMonth : string) (daysUsed : float) : CMDaysUsage.t :=
  CMDaysUsage.mk "u2" yearMonth daysUsed None "2024-04-09" "2024-04-09".

(** The sites [getPortfolioStartDate] looks at: contracted, with an onboard
    date that is neither null nor empty. *)
Definition isDatedContract (s : Site.t) : bool :=
  isContractedSite s && JSString.truthy (Site.onboardDate s).

(** A contracted site with a given onboard date. *)
Definition contractedSince (onboardDate : option string) : Site.t :=
  Site.mk "s10" "Dated" 3000 Rooftop Yes onboardDate 0 0 0
    None None None None "2024-01-01" "2024-01-01".

(** The key of a month, given as a year and a month counted from 0, as the
    loop of [getMonthsFromStart] writes it. *)
Definition monthKey (ym : Z * Z) : string :=
  JSString.ofInteger ym.1 +:+ "-" +:+ JSString.padStart2 (JSString.ofInteger (ym.2 + 1)).

(** The calendar month after a month, and [n] calendar months in a row. *)
Definition nextMonth (ym : Z * Z) : Z * Z :=
  if (ym.2 =? 11)%Z then (ym.1 + 1, 0)%Z else (ym.1, ym.2 + 1)%Z.

Fixpoint monthsFrom (ym : Z * Z) (n : nat) : list (Z * Z) :=
  match n with
  | O => []
  | S n' => ym :: monthsFrom (nextMonth ym) n'
  end.

(** The year and month (from 0) a time value falls in, in local time. *)
Definition localMonth (tza t : Z) : Z * Z :=
  (JSDate.YearFromTime (JSDate.LocalTime tza t),
   JSDate.MonthFromTime (JSDate.LocalTime tza t)).

(** A site counts in the month that ends at the instant [endOfMonth]. *)
Definition onboardedBy (tza : Z) (endOfMonth : option Z) (s : Site.t) : bool :=
  isDatedContract s
  && JSDate.le (JSString.parseDate tza (default "" (Site.onboardDate s))) endOfMonth.

(** Months counted from year 0, and the local time of day of a time value. *)
Definition monthIndex (ym : Z * Z) : Z := (12 * ym.1 + ym.2)%Z.

Definition localTimeOfDay (tza t : Z) : Z :=
  JSDate.TimeWithinDay (JSDate.LocalTime tza t).

(** The number of months from the month of [t0] to the month of [clock],
    the latter counted when the time of day of [t0] is not after that of
    [clock]. *)
Definition monthsCounted (tza clock t0 : Z) : nat :=
  Z.to_nat
    (monthIndex (localMonth tza clock) - monthIndex (localMonth tza t0)
     + (if (localTimeOfDay tza t0 <=? localTimeOfDay tza clock)%Z then 1 else 0))%Z.

(** ** Facts about binary64 numbers *)

Section FloatFacts.
Local Open Scope float_scope.

Lemma SFcompare_refl_not_Lt (f : spec_float) : SFcompare f f <> Some Lt.
Proof.
  destruct f as [[]|[]| |[] m e]; simpl; try discriminate;
    rewrite Z.compare_refl; rewrite ?Pos.compare_cont_refl; simpl;
    change (Pos.compare_cont Eq m m) with (Pos.compare m m);
    rewrite ?Pos.compare_refl; discriminate.
Qed.

Lemma ltb_irrefl (x : float) : (x <? x) = false.
Proof.
  rewrite FloatAxioms.ltb_spec. unfold SFltb.
  pose proof (SFcompare_refl_not_Lt (Prim2SF x)) as H.
  destruct (SFcompare (Prim2SF x) (Prim2SF x)) as [[]|]; congruence.
Qed.

(** From 0 upwards, being different from 0 is being above 0. *)
Lemma nonneg_eqb_ltb (x : float) :
  (0 <=? x) = true -> (x =? 0) = negb (0 <? x).
Proof.
  rewrite FloatAxioms.leb_spec, FloatAxioms.eqb_spec, FloatAxioms.ltb_spec.
  change (Prim2SF 0) with (S754_zero false).
  unfold SFleb, SFeqb, SFltb.
  destruct (Prim2SF x) as [[]|[]| |[] m e]; simpl; congruence.
Qed.

Lemma ltb_20_30 (c : float) : (c <? 20) = true -> (c <? 30) = true.
Proof.
  rewrite !FloatAxioms.ltb_spec.
  change (Prim2SF 30) with (S754_finite false 8444249301319680 (-48)).
  change (Prim2SF 20) with (S754_finite false 5629499534213120 (-48)).
  unfold SFltb, SFcompare.
  destruct (Prim2SF c) as [[]|[]| |[] m e]; try discriminate; try reflexivity.
  destruct (e ?= -48)%Z; try discriminate; try reflexivity.
  rewrite !Pos.compare_cont_spec. unfold Pos.switch_Eq.
  destruct (m ?= 5629499534213120)%positive eqn:E1; try discriminate.
  intros _. rewrite Pos.compare_lt_iff in E1.
  assert (E2 : (m ?= 8444249301319680)%positive = Lt).
  { rewrite Pos.compare_lt_iff. eapply Pos.lt_trans; [exact E1|reflexivity]. }
  rewrite E2. reflexivity.
Qed.

Lemma ltb_30_40 (c : float) : (c <? 30) = true -> (c <? 40) = true.
Proof.
  rewrite !FloatAxioms.ltb_spec.
  change (Prim2SF 30) with (S754_finite false 8444249301319680 (-48)).
  change (Prim2SF 40) with (S754_finite false 5629499534213120 (-47)).
  unfold SFltb, SFcompare.
  destruct (Prim2SF c) as [[]|[]| |[] m e]; try discriminate; try reflexivity.
  destruct (Z.compare_spec e (-48)) as [E|E|E]; try discriminate.
  - intros _. subst e. reflexivity.
  - intros _. assert (E2 : (e ?= -47)%Z = Lt) by (apply Z.compare_lt_iff; lia).
    rewrite E2. reflexivity.
Qed.

Lemma add_nan_l (x : float) : nan + x = nan.
Proof. apply Prim2SF_inj. rewrite FloatAxioms.add_spec. reflexivity. Qed.

Lemma add_nan_r (x : float) : x + nan = nan.
Proof.
  apply Prim2SF_inj. rewrite FloatAxioms.add_spec.
  change (Prim2SF nan) with S754_nan.
  destruct (Prim2SF x) as [[]|[]| |[] m e]; reflexivity.
Qed.

Lemma mul_nan_l (x : float) : nan * x = nan.
Proof. apply Prim2SF_inj. rewrite FloatAxioms.mul_spec. reflexivity. Qed.

End FloatFacts.

(** ** Site fee calculator *)

(** Two different numbers are told apart by their IEEE 754 decoding. *)
Ltac float_discriminate H :=
  apply (f_equal Prim2SF) in H; vm_compute in H; discriminate H.

Lemma calculateSiteWithAllTiers_inv (site : Site.t) (tiers : list RateTier.t)
    (r : SiteWithCalculations.t) :
  calculateSiteWithAllTiers site tiers = Return r ->
  exists t20 t30 t40,
    baseTier tiers = Some t20 /\ tier30Of tiers = Some t30 /\ tier40Of tiers = Some t40
    /\ r = SiteWithCalculations.mk
         (Site.id site) (Site.name site) (Site.systemSizeKwp site) (Site.siteType site)
         (Site.contractStatus site) (Site.onboardDate site)
         (Site.pmCost site) (Site.cctvCost site) (Site.cleaningCost site)
         (Site.spvId site) (Site.spvCode site) (Site.sourceSheet site) (Site.sourceRow site)
         (Site.createdAt site) (Site.updatedAt site)
         (calculateSiteFixedCosts site)
         (calculatePortfolioCost (Site.systemSizeKwp site) (RateTier.ratePerKwp t20))
         (calculatePortfolioCost (Site.systemSizeKwp site) (RateTier.ratePerKwp t30))
         (calculatePortfolioCost (Site.systemSizeKwp site) (RateTier.ratePerKwp t40))
         (fixedFeeAt site t20) (fixedFeeAt site t30) (fixedFeeAt site t40)
         (calculateFeePerKwp (fixedFeeAt site t20) (Site.systemSizeKwp site) (isContractedSite site))
         (calculateFeePerKwp (fixedFeeAt site t30) (Site.systemSizeKwp site) (isContractedSite site))
         (calculateFeePerKwp (fixedFeeAt site t40) (Site.systemSizeKwp site) (isContractedSite site))
         (if isContractedSite site then calculateMonthlyFee (fixedFeeAt site t20) else 0%float).
Proof.
  unfold calculateSiteWithAllTiers, baseTier, tier30Of, tier40Of.
  destruct (orElse (findTierNamed "<20MW" tiers) (tiers !! 0%nat)) as [t20|]; [|discriminate].
  destruct (orElse (findTierNamed "20-30MW" tiers) (tiers !! 1%nat)) as [t30|]; [|discriminate].
  destruct (orElse (findTierNamed "30-40MW" tiers) (tiers !! 2%nat)) as [t40|]; [|discriminate].
  simpl. intros [= <-]. exists t20, t30, t40. repeat split.
Qed.

Lemma orElse_lookup_is_Some {A : Type} (a : option A) (l : list A) (i : nat) :
  (i < length l)%nat -> is_Some (orElse a (l !! i)).
Proof.
  intros Hi. destruct a; simpl; [eauto|]. apply lookup_lt_is_Some_2, Hi.
Qed.

(** With three tiers or more in the table, each of the three lookups finds a
    tier and the calculator returns. *)
Lemma calculateSiteWithAllTiers_returns (site : Site.t) (tiers : list RateTier.t) :
  (3 <= length tiers)%nat -> exists r, calculateSiteWithAllTiers site tiers = Return r.
Proof.
  intros Hlen. unfold calculateSiteWithAllTiers.
  destruct (orElse_lookup_is_Some (findTierNamed "<20MW" tiers) tiers 0) as [t20 ->]; [lia|].
  destruct (orElse_lookup_is_Some (findTierNamed "20-30MW" tiers) tiers 1) as [t30 ->]; [lia|].
  destruct (orElse_lookup_is_Some (findTierNamed "30-40MW" tiers) tiers 2) as [t40 ->]; [lia|].
  simpl. eauto.
Qed.

Lemma calculateFeePerKwp_nonneg (fixedFee systemSizeKwp : float) (isContracted : bool) :
  (0 <=? systemSizeKwp)%float = true ->
  calculateFeePerKwp fixedFee systemSizeKwp isContracted
  = if isContracted && (0 <? systemSizeKwp)%float then (fixedFee / systemSizeKwp)%float
    else 0%float.
Proof.
  intros Hs. unfold calculateFeePerKwp. rewrite (nonneg_eqb_ltb _ Hs).
  destruct isContracted, (0 <? systemSizeKwp)%float; reflexivity.
Qed.

Lemma calculateFeePerKwp_checked_total (fixedFee systemSizeKwp : float) (isContracted : bool) :
  calculateFeePerKwp_checked fixedFee systemSizeKwp isContracted
  = Some (calculateFeePerKwp fixedFee systemSizeKwp isContracted).
Proof.
  unfold calculateFeePerKwp_checked, calculateFeePerKwp, divideNonZero.
  destruct isContracted, (systemSizeKwp =? 0)%float eqn:E; simpl; rewrite ?E; reflexivity.
Qed.

(** C2. For a site of size at least 0, each of the three per-kWp fees is the
    fixed fee of its tier divided by the size when the site is contracted and
    its size is above 0, and exactly 0 otherwise; the division is never made
    with a zero divisor: the function written with a division that refuses
    one always returns. *)
Theorem feePerKwp_guarded (site : Site.t) (tiers : list RateTier.t)
    (r : SiteWithCalculations.t) :
  (0 <=? Site.systemSizeKwp site)%float = true ->
  calculateSiteWithAllTiers site tiers = Return r ->
  let size := Site.systemSizeKwp site in
  let charged := isContractedSite site && (0 <? size)%float in
  SiteWithCalculations.feePerKwp_20MW r
    = (if charged then (SiteWithCalculations.fixedFee_20MW r / size)%float else 0%float)
  /\ SiteWithCalculations.feePerKwp_30MW r
    = (if charged then (SiteWithCalculations.fixedFee_30MW r / size)%float else 0%float)
  /\ SiteWithCalculations.feePerKwp_40MW r
    = (if charged then (SiteWithCalculations.fixedFee_40MW r / size)%float else 0%float)
  /\ forall fixedFee : float,
       calculateFeePerKwp_checked fixedFee size (isContractedSite site)
       = Some (calculateFeePerKwp fixedFee size (isContractedSite site)).
Proof.
  intros Hsize Hr size charged.
  destruct (calculateSiteWithAllTiers_inv _ _ _ Hr) as (t20 & t30 & t40 & _ & _ & _ & ->).
  simpl. subst size charged.
  repeat split; try (apply calculateFeePerKwp_nonneg; exact Hsize).
  intros fixedFee. apply calculateFeePerKwp_checked_total.
Qed.

Lemma feePerKwp_guarded_witness :
  exists r,
    calculateSiteWithAllTiers exampleSite DEFAULT_RATE_TIERS = Return r
    /\ SiteWithCalculations.feePerKwp_20MW r
       = (SiteWithCalculations.fixedFee_20MW r / 10000)%float.
Proof.
  eexists. split; [reflexivity|].
  apply (feePerKwp_guarded exampleSite DEFAULT_RATE_TIERS _ eq_refl eq_refl).
Defined.

(** C10. The record returned for a site carries each of the fifteen fields of
    the site with the value it has in the input. The calculator is a function
    of its argument: it has no access to the caller's record other than
    reading it. *)
Theorem site_fields_carried (site : Site.t) (tiers : list RateTier.t)
    (r : SiteWithCalculations.t) :
  calculateSiteWithAllTiers site tiers = Return r ->
  SiteWithCalculations.id r = Site.id site
  /\ SiteWithCalculations.name r = Site.name site
  /\ SiteWithCalculations.systemSizeKwp r = Site.systemSizeKwp site
  /\ SiteWithCalculations.siteType r = Site.siteType site
  /\ SiteWithCalculations.contractStatus r = Site.contractStatus site
  /\ SiteWithCalculations.onboardDate r = Site.onboardDate site
  /\ SiteWithCalculations.pmCost r = Site.pmCost site
  /\ SiteWithCalculations.cctvCost r = Site.cctvCost site
  /\ SiteWithCalculations.cleaningCost r = Site.cleaningCost site
  /\ SiteWithCalculations.spvId r = Site.spvId site
  /\ SiteWithCalculations.spvCode r = Site.spvCode site
  /\ SiteWithCalculations.sourceSheet r = Site.sourceSheet site
  /\ SiteWithCalculations.sourceRow r = Site.sourceRow site
  /\ SiteWithCalculations.createdAt r = Site.createdAt site
  /\ SiteWithCalculations.updatedAt r = Site.updatedAt site.
Proof.
  intros Hr.
  destruct (calculateSiteWithAllTiers_inv _ _ _ Hr) as (t20 & t30 & t40 & _ & _ & _ & ->).
  simpl. repeat split.
Qed.

Lemma site_fields_carried_witness :
  exists r,
    calculateSiteWithAllTiers exampleSite DEFAULT_RATE_TIERS = Return r
    /\ SiteWithCalculations.name r = "Example"
    /\ SiteWithCalculations.onboardDate r = Some "2024-01-15".
Proof.
  eexists. split; [reflexivity|].
  pose proof (site_fields_carried exampleSite DEFAULT_RATE_TIERS _ eq_refl) as H.
  split; [exact (proj1 (proj2 H)) | exact (proj1 (proj2 (proj2 (proj2 (proj2 (proj2 H))))))].
Defined.

(** With the table [reorderedTiers] the monthly fee of [exampleSite] is priced
    at the tier named "<20MW" (rate 2.0), not at the first tier (rate 5.0). *)
Lemma monthlyFee_first_tier_counterexample :
  ~ monthlyFeeAtFirstTier exampleSite reorderedTiers.
Proof.
  intros H. specialize (H _ _ eq_refl eq_refl).
  float_discriminate H.
Qed.

(** C3 (amended). Whenever the calculator returns, the monthly fee of a
    contracted site is the fixed fee at the base tier divided by 12, the base
    tier being the first tier named "<20MW" when the table has one and the
    first tier of the table otherwise (for the default table the two agree);
    the monthly fee of a non-contracted site is exactly 0. *)
Theorem monthlyFee_at_base_tier (site : Site.t) (tiers : list RateTier.t)
    (r : SiteWithCalculations.t) :
  calculateSiteWithAllTiers site tiers = Return r ->
  exists base,
    match findTierNamed "<20MW" tiers with
    | Some named => base = named
    | None => tiers !! 0%nat = Some base
    end
    /\ SiteWithCalculations.fixedFee_20MW r = fixedFeeAt site base
    /\ SiteWithCalculations.monthlyFee r
       = match Site.contractStatus site with
         | Yes => (fixedFeeAt site base / 12)%float
         | No => 0%float
         end
    /\ baseTier DEFAULT_RATE_TIERS = DEFAULT_RATE_TIERS !! 0%nat.
Proof.
  intros Hr.
  destruct (calculateSiteWithAllTiers_inv _ _ _ Hr) as (t20 & t30 & t40 & Hb & _ & _ & ->).
  exists t20. simpl. repeat split.
  - unfold baseTier in Hb. destruct (findTierNamed "<20MW" tiers); simpl in Hb; congruence.
  - unfold isContractedSite. destruct (Site.contractStatus site); reflexivity.
Qed.

Lemma monthlyFee_at_base_tier_witness :
  exists r,
    calculateSiteWithAllTiers exampleSite reorderedTiers = Return r
    /\ exists base,
         RateTier.tierName base = "<20MW"
         /\ SiteWithCalculations.monthlyFee r = (fixedFeeAt exampleSite base / 12)%float.
Proof.
  eexists. split; [reflexivity|].
  destruct (monthlyFee_at_base_tier exampleSite reorderedTiers _ eq_refl)
    as (base & Hbase & _ & Hfee & _).
  exists base. simpl in Hbase. subst base. split; [reflexivity | exact Hfee].
Defined.

(** Without [pmCost] the fixed costs are NaN, not the 150 of the zero-filled
    record. *)
Lemma missing_input_counterexample :
  ~ missingReadAsZero recordWithoutPmCost DEFAULT_RATE_TIERS.
Proof.
  intros H.
  apply (f_equal (fun o => match o with
                           | Return (fixedCosts :: _) => Prim2SF fixedCosts
                           | _ => S754_zero false
                           end)) in H.
  vm_compute in H. discriminate H.
Qed.

Lemma calculateSiteFixedCosts_missing (p : PartialSite.t) :
  PartialSite.pmCost p = None \/ PartialSite.cctvCost p = None
  \/ PartialSite.cleaningCost p = None ->
  calculateSiteFixedCosts (PartialSite.asRead p) = nan.
Proof.
  unfold calculateSiteFixedCosts, PartialSite.asRead, PartialSite.withNumbers. simpl.
  intros [-> | [-> | ->]]; simpl.
  - rewrite add_nan_l. apply add_nan_l.
  - rewrite add_nan_r. apply add_nan_l.
  - apply add_nan_r.
Qed.

(** C7 (amended). The calculator returns on the default tier table and on
    every table of three tiers or more. It does not replace a missing numeric
    input by zero: for a record with all four numeric inputs present, what it
    reads is the record itself; with a cost missing, the fixed costs, the
    three fixed fees and, for a contracted site, the monthly fee are NaN; with
    the size missing, the three portfolio costs and fixed fees are NaN. *)
Theorem missing_inputs_propagate (p : PartialSite.t) (tiers : list RateTier.t) :
  (exists r, calculateSiteWithAllTiers (PartialSite.asRead p) DEFAULT_RATE_TIERS = Return r)
  /\ ((3 <= length tiers)%nat ->
      exists r, calculateSiteWithAllTiers (PartialSite.asRead p) tiers = Return r)
  /\ (PartialSite.complete p -> PartialSite.asRead p = PartialSite.zeroFilled p)
  /\ (PartialSite.pmCost p = None \/ PartialSite.cctvCost p = None
      \/ PartialSite.cleaningCost p = None ->
      forall r,
        calculateSiteWithAllTiers (PartialSite.asRead p) tiers = Return r ->
        SiteWithCalculations.siteFixedCosts r = nan
        /\ SiteWithCalculations.fixedFee_20MW r = nan
        /\ SiteWithCalculations.fixedFee_30MW r = nan
        /\ SiteWithCalculations.fixedFee_40MW r = nan
        /\ SiteWithCalculations.monthlyFee r
           = match PartialSite.contractStatus p with Yes => nan | No => 0%float end)
  /\ (PartialSite.systemSizeKwp p = None ->
      forall r,
        calculateSiteWithAllTiers (PartialSite.asRead p) tiers = Return r ->
        SiteWithCalculations.portfolioCost_20MW r = nan
        /\ SiteWithCalculations.portfolioCost_30MW r = nan
        /\ SiteWithCalculations.portfolioCost_40MW r = nan
        /\ SiteWithCalculations.fixedFee_20MW r = nan
        /\ SiteWithCalculations.fixedFee_30MW r = nan
        /\ SiteWithCalculations.fixedFee_40MW r = nan).
Proof.
  split; [|split; [|split; [|split]]].
  - apply calculateSiteWithAllTiers_returns. simpl. lia.
  - apply calculateSiteWithAllTiers_returns.
  - intros ([x Hx] & [a Ha] & [b Hb] & [c Hc]).
    unfold PartialSite.asRead, PartialSite.zeroFilled, PartialSite.withNumbers.
    rewrite Hx, Ha, Hb, Hc. reflexivity.
  - intros Hmiss r Hr.
    destruct (calculateSiteWithAllTiers_inv _ _ _ Hr) as (t20 & t30 & t40 & _ & _ & _ & ->).
    cbn [SiteWithCalculations.siteFixedCosts SiteWithCalculations.fixedFee_20MW
         SiteWithCalculations.fixedFee_30MW SiteWithCalculations.fixedFee_40MW
         SiteWithCalculations.monthlyFee].
    unfold fixedFeeAt, calculateFixedFee, calculateMonthlyFee, isContractedSite.
    rewrite (calculateSiteFixedCosts_missing p Hmiss), !add_nan_l.
    repeat split.
    change (Site.contractStatus (PartialSite.asRead p)) with (PartialSite.contractStatus p).
    destruct (PartialSite.contractStatus p); reflexivity.
  - intros Hsize r Hr.
    destruct (calculateSiteWithAllTiers_inv _ _ _ Hr) as (t20 & t30 & t40 & _ & _ & _ & ->).
    cbn [SiteWithCalculations.portfolioCost_20MW SiteWithCalculations.portfolioCost_30MW
         SiteWithCalculations.portfolioCost_40MW SiteWithCalculations.fixedFee_20MW
         SiteWithCalculations.fixedFee_30MW SiteWithCalculations.fixedFee_40MW].
    unfold fixedFeeAt, calculateFixedFee, calculatePortfolioCost.
    change (Site.systemSizeKwp (PartialSite.asRead p))
      with (JS.ToNumber (PartialSite.systemSizeKwp p)).
    rewrite Hsize. cbn [JS.ToNumber]. rewrite !mul_nan_l, !add_nan_r. repeat split.
Qed.

Lemma missing_inputs_propagate_witness :
  exists r,
    calculateSiteWithAllTiers (PartialSite.asRead recordWithoutPmCost) DEFAULT_RATE_TIERS
      = Return r
    /\ SiteWithCalculations.siteFixedCosts r = nan
    /\ SiteWithCalculations.monthlyFee r = nan.
Proof.
  eexists. split; [reflexivity|].
  destruct (missing_inputs_propagate recordWithoutPmCost DEFAULT_RATE_TIERS)
    as (_ & _ & _ & H & _).
  destruct (H (or_introl eq_refl) _ eq_refl) as (H1 & _ & _ & _ & H5).
  split; [exact H1 | exact H5].
Defined.

(** ** Tier selection *)

Lemma determinePortfolioTier_from_find (capacityMW : float) (rest tiers : list RateTier.t) :
  determinePortfolioTier_from capacityMW rest tiers
  = match List.find (tierAccepts capacityMW) rest with
    | Some tier => Some tier
    | None => last tiers
    end.
Proof.
  induction rest as [|tier rest IH]; simpl.
  - destruct tiers as [|t0 tiers']; [reflexivity|].
    rewrite last_lookup. f_equal. simpl. lia.
  - destruct (tierAccepts capacityMW tier); [reflexivity | exact IH].
Qed.

Lemma determinePortfolioTier_selectTier (capacityMW : float) (tiers : list RateTier.t) :
  determinePortfolioTier capacityMW tiers = selectTier capacityMW tiers.
Proof. apply determinePortfolioTier_from_find. Qed.

Lemma find_app_none {A : Type} (f : A -> bool) (l1 l2 : list A) :
  forallb (fun a => negb (f a)) l1 = true -> List.find f (l1 ++ l2) = List.find f l2.
Proof.
  induction l1 as [|a l1 IH]; simpl; [reflexivity|].
  intros [Ha Hl]%andb_true_iff. destruct (f a); [discriminate | exact (IH Hl)].
Qed.

Lemma tierAccepts_own_bound (capacityMW : float) (tier : RateTier.t) :
  RateTier.maxCapacityMW tier = Some capacityMW -> tierAccepts capacityMW tier = false.
Proof. unfold tierAccepts. intros ->. apply ltb_irrefl. Qed.

Lemma selectTier_default_some (capacityMW : float) :
  exists tier, selectTier capacityMW DEFAULT_RATE_TIERS = Some tier.
Proof.
  unfold selectTier, DEFAULT_RATE_TIERS. simpl.
  repeat match goal with |- context [tierAccepts ?c ?t] => destruct (tierAccepts c t) end;
    eauto.
Qed.

Lemma mapOutcome_default_returns (sites : list Site.t) :
  exists rs,
    mapOutcome (fun s => calculateSiteWithAllTiers s DEFAULT_RATE_TIERS) sites = Return rs.
Proof.
  induction sites as [|s sites [rs IH]]; cbn [mapOutcome]; [eauto|].
  destruct (calculateSiteWithAllTiers_returns s DEFAULT_RATE_TIERS) as [r ->]; [simpl; lia|].
  rewrite IH. cbn [JS.bind]. eauto.
Qed.

(** The summary is always produced, and its tier is read off the default table. *)
Lemma calculatePortfolioSummary_tier (sites : list Site.t) :
  exists summary selected,
    calculatePortfolioSummary sites = Return summary
    /\ PortfolioSummary.contractedCapacityKwp summary
       = sumBy Site.systemSizeKwp (List.filter isContractedSite sites)
    /\ determinePortfolioTier (PortfolioSummary.contractedCapacityKwp summary / 1000)%float
         DEFAULT_RATE_TIERS = Some selected
    /\ PortfolioSummary.currentTier summary = RateTier.tierName selected.
Proof.
  unfold calculatePortfolioSummary.
  destruct (mapOutcome_default_returns (List.filter isContractedSite sites)) as [rs ->].
  set (capacityKwp := sumBy Site.systemSizeKwp (List.filter isContractedSite sites)).
  destruct (selectTier_default_some (capacityKwp / 1000)%float) as [tier Htier].
  rewrite <- determinePortfolioTier_selectTier in Htier.
  simpl. rewrite Htier. simpl. eauto 10.
Qed.

(** 40 MW contracted is placed in "30-40MW", the tier whose maxCapacityMW is
    40: no tier accepts it and the last tier is returned. And the summary does
    not follow a table other than the default one: it has no table argument. *)
Lemma tier_boundary_counterexample :
  ~ boundaryExcluded [site40MW] /\ ~ summaryFollowsTable flatTable [].
Proof.
  split.
  - intros H.
    apply (H _ (RateTier.mk "3" "30-40MW" 30 (Some 40%float) 1.7) eq_refl);
      [simpl; tauto | reflexivity | reflexivity].
  - intros H. specialize (H _ eq_refl). vm_compute in H. discriminate H.
Qed.

(** C1 (amended). The portfolio summary takes no tier table: its current tier
    is the one [determinePortfolioTier] selects in the built-in default table
    for the contracted capacity divided by 1000. On every table,
    [determinePortfolioTier] returns the first tier in table order whose
    maxCapacityMW is null or strictly greater than the capacity, and the last
    tier of the table when no tier is. A capacity equal to the maxCapacityMW
    of a tier is not accepted by that tier, and is placed as by the table that
    starts at the next tier when there is one. A contracted capacity of
    25 000 kWp resolves to "20-30MW". *)
Theorem portfolio_tier_selection (sites : list Site.t) (capacityMW : float)
    (tiers before after : list RateTier.t) (tier next : RateTier.t) :
  (exists summary selected,
      calculatePortfolioSummary sites = Return summary
      /\ PortfolioSummary.contractedCapacityKwp summary
         = sumBy Site.systemSizeKwp (List.filter isContractedSite sites)
      /\ selectTier (PortfolioSummary.contractedCapacityKwp summary / 1000)%float
           DEFAULT_RATE_TIERS = Some selected
      /\ PortfolioSummary.currentTier summary = RateTier.tierName selected
      /\ (PortfolioSummary.contractedCapacityKwp summary = 25000%float ->
          PortfolioSummary.currentTier summary = "20-30MW"))
  /\ determinePortfolioTier capacityMW tiers = selectTier capacityMW tiers
  /\ (RateTier.maxCapacityMW tier = Some capacityMW ->
      tierAccepts capacityMW tier = false
      /\ (forallb (fun t => negb (tierAccepts capacityMW t)) before = true ->
          determinePortfolioTier capacityMW (before ++ tier :: next :: after)
          = determinePortfolioTier capacityMW (next :: after))).
Proof.
  split; [|split].
  - destruct (calculatePortfolioSummary_tier sites)
      as (summary & selected & Hsum & Hcap & Hsel & Hname).
    exists summary, selected. rewrite <- determinePortfolioTier_selectTier.
    repeat split; try assumption.
    intros H25. rewrite H25 in Hsel. vm_compute in Hsel.
    injection Hsel as <-. rewrite Hname. reflexivity.
  - apply determinePortfolioTier_selectTier.
  - intros Hmax. pose proof (tierAccepts_own_bound _ _ Hmax) as Hrej.
    split; [exact Hrej|]. intros Hbefore.
    rewrite !determinePortfolioTier_selectTier. unfold selectTier.
    rewrite (find_app_none _ _ _ Hbefore). simpl List.find at 1. rewrite Hrej.
    replace (last (before ++ tier :: next :: after)) with (last (next :: after));
      [reflexivity|].
    change (before ++ tier :: next :: after) with (before ++ [tier] ++ (next :: after)).
    rewrite !app_assoc. generalize (before ++ [tier]). intros l.
    induction l as [|a l IH]; [reflexivity|].
    rewrite IH. simpl. destruct (l ++ next :: after) eqn:E; [|reflexivity].
    destruct l; discriminate.
Qed.

Lemma portfolio_tier_selection_witness :
  (exists summary,
      calculatePortfolioSummary [exampleSite; site15MW] = Return summary
      /\ PortfolioSummary.currentTier summary = "20-30MW")
  /\ option_map RateTier.tierName (determinePortfolioTier 20 DEFAULT_RATE_TIERS)
     = Some "20-30MW".
Proof.
  destruct (portfolio_tier_selection [exampleSite; site15MW] 20 DEFAULT_RATE_TIERS []
              [RateTier.mk "3" "30-40MW" 30 (Some 40%float) 1.7]
              (RateTier.mk "1" "<20MW" 0 (Some 20%float) 2.0)
              (RateTier.mk "2" "20-30MW" 20 (Some 30%float) 1.8))
    as ((summary & selected & Hsum & Hcap & _ & _ & H25) & _ & Hbound).
  split.
  - exists summary. split; [exact Hsum|]. apply H25. rewrite Hcap. reflexivity.
  - destruct (Hbound eq_refl) as [_ Hnext].
    change DEFAULT_RATE_TIERS
      with ([] ++ RateTier.mk "1" "<20MW" 0 (Some 20%float) 2.0
               :: RateTier.mk "2" "20-30MW" 20 (Some 30%float) 1.8
               :: [RateTier.mk "3" "30-40MW" 30 (Some 40%float) 1.7]).
    rewrite (Hnext eq_refl). reflexivity.
Defined.

(** ** The default tier table *)

(** The default table has no unbounded tier, and at 40 MW no tier accepts. *)
Lemma default_table_counterexample :
  ~ RateTierInvariant DEFAULT_RATE_TIERS /\ ~ fallbackUnreachable DEFAULT_RATE_TIERS.
Proof.
  split.
  - intros (_ & Hone & _). vm_compute in Hone. discriminate Hone.
  - intros H. specialize (H 40%float eq_refl). vm_compute in H. discriminate H.
Qed.

Lemma default_accepts_below_40 (capacityMW : float) :
  existsb (tierAccepts capacityMW) DEFAULT_RATE_TIERS = (capacityMW <? 40)%float.
Proof.
  unfold DEFAULT_RATE_TIERS, tierAccepts. simpl.
  destruct (capacityMW <? 20)%float eqn:E20.
  - rewrite (ltb_30_40 _ (ltb_20_30 _ E20)). reflexivity.
  - destruct (capacityMW <? 30)%float eqn:E30.
    + rewrite (ltb_30_40 _ E30). reflexivity.
    + simpl. destruct (capacityMW <? 40)%float; reflexivity.
Qed.

(** C9 (amended). The default table is ordered by increasing capacity, starts
    at 0 and leaves no gap, but none of its tiers has maxCapacityMW = null:
    its last tier ends at 40. A tier accepts a capacity exactly when the
    capacity is below 40; for every other capacity the statement after the
    loop is reached and returns the last tier. *)
Theorem default_table_shape (capacityMW : float) :
  orderedByCapacity DEFAULT_RATE_TIERS = true
  /\ noGaps DEFAULT_RATE_TIERS = true
  /\ List.filter isUnbounded DEFAULT_RATE_TIERS = []
  /\ option_map RateTier.maxCapacityMW (last DEFAULT_RATE_TIERS) = Some (Some 40%float)
  /\ existsb (tierAccepts capacityMW) DEFAULT_RATE_TIERS = (capacityMW <? 40)%float
  /\ ((capacityMW <? 40)%float = false ->
      List.find (tierAccepts capacityMW) DEFAULT_RATE_TIERS = None
      /\ determinePortfolioTier capacityMW DEFAULT_RATE_TIERS = last DEFAULT_RATE_TIERS).
Proof.
  do 4 (split; [reflexivity|]).
  split; [apply default_accepts_below_40|].
  intros Hge.
  assert (Hfind : List.find (tierAccepts capacityMW) DEFAULT_RATE_TIERS = None).
  { destruct (List.find (tierAccepts capacityMW) DEFAULT_RATE_TIERS) as [t|] eqn:Hfind;
      [|reflexivity].
    apply find_some in Hfind as [Hin Hacc].
    assert (Hex : existsb (tierAccepts capacityMW) DEFAULT_RATE_TIERS = true)
      by (apply existsb_exists; eauto).
    rewrite default_accepts_below_40 in Hex. congruence. }
  split; [exact Hfind|].
  rewrite determinePortfolioTier_selectTier. unfold selectTier. rewrite Hfind. reflexivity.
Qed.

Lemma default_table_shape_witness :
  option_map RateTier.tierName (determinePortfolioTier 50 DEFAULT_RATE_TIERS)
  = Some "30-40MW".
Proof.
  destruct (default_table_shape 50) as (_ & _ & _ & _ & _ & H).
  destruct (H eq_refl) as [_ ->]. reflexivity.
Defined.

(** ** CM-days reconciler *)

Lemma getPortfolioStartDate_none (tza : Z) (sites : list Site.t) :
  (forall s, In s sites -> Site.contractStatus s = Yes -> Site.onboardDate s = None) ->
  getPortfolioStartDate tza sites = None.
Proof.
  intros Hnone. unfold getPortfolioStartDate.
  replace (List.filter
             (fun s => isContractedSite s && JSString.truthy (Site.onboardDate s)) sites)
    with (@nil Site.t); [reflexivity|].
  symmetry. induction sites as [|s sites IH]; [reflexivity|].
  simpl. rewrite IH by (intros s' Hin; apply Hnone; right; exact Hin).
  pose proof (Hnone s (or_introl eq_refl)) as Hs.
  unfold isContractedSite. destruct (Site.contractStatus s); [|reflexivity].
  rewrite (Hs eq_refl). reflexivity.
Qed.

(** C8. When no contracted site has a non-null onboard date (the empty list
    of sites included), the tracking summary is the empty state: null start
    date, no monthly entry and the three totals 0. *)
Theorem no_onboarded_site_empty (tza clock : Z) (sites : list Site.t)
    (cmDaysUsage : list CMDaysUsage.t) :
  (forall s, In s sites -> Site.contractStatus s = Yes -> Site.onboardDate s = None) ->
  calculateCMDaysTracking tza clock sites cmDaysUsage
  = CMDaysTrackingSummary.mk None [] 0 0 0.
Proof.
  intros Hnone. unfold calculateCMDaysTracking.
  rewrite (getPortfolioStartDate_none tza sites Hnone). reflexivity.
Qed.

Lemma no_onboarded_site_empty_witness :
  calculateCMDaysTracking 0 clockApril2024 [prospectSite; undatedSite] [usageInApril 2]
  = CMDaysTrackingSummary.mk None [] 0 0 0
  /\ calculateCMDaysTracking 0 clockApril2024 [] [usageInApril 2]
     = CMDaysTrackingSummary.mk None [] 0 0 0.
Proof.
  split.
  - apply (no_onboarded_site_empty 0 clockApril2024 [prospectSite; undatedSite]).
    intros s [<- | [<- | []]]; simpl; [discriminate | reflexivity].
  - apply (no_onboarded_site_empty 0 clockApril2024 []). intros s [].
Defined.

(** The entries and the final sums of [mapMonths] from given running sums. *)
Lemma mapMonths_spec (tza : Z) (sites : list Site.t) (cmDaysUsage : list CMDaysUsage.t)
    (months : list string) (st : running) :
  let plus f := fun sum ym => (sum + f ym)%float in
  let result := mapMonths tza sites (usageMapOf cmDaysUsage) st months in
  (forall n entry,
      result.1 !! n = Some entry ->
      exists ym,
        months !! n = Some ym
        /\ let acc := fold_left (plus (accrualOf tza sites)) (take (S n) months)
                        (cumulativeAccumulated st) in
           let used := fold_left (plus (usedOf cmDaysUsage)) (take (S n) months)
                         (cumulativeUsed st) in
           entry = CMDaysMonthData.mk ym
                     (round1 (accrualOf tza sites ym))
                     (usedOf cmDaysUsage ym)
                     (round1 (accrualOf tza sites ym - usedOf cmDaysUsage ym))
                     (round1 acc) (round1 used) (round1 (acc - used)))
  /\ result.2
     = mkRunning
         (fold_left (plus (accrualOf tza sites)) months (cumulativeAccumulated st))
         (fold_left (plus (usedOf cmDaysUsage)) months (cumulativeUsed st)).
Proof.
  intros plus. revert st.
  induction months as [|ym months IH]; intros st result.
  - split; [intros n entry H; destruct n; discriminate | destruct st; reflexivity].
  - subst result. cbn [mapMonths].
    change (monthStep tza sites (usageMapOf cmDaysUsage) st ym)
      with (CMDaysMonthData.mk ym
              (round1 (accrualOf tza sites ym))
              (usedOf cmDaysUsage ym)
              (round1 (accrualOf tza sites ym - usedOf cmDaysUsage ym))
              (round1 (cumulativeAccumulated st + accrualOf tza sites ym))
              (round1 (cumulativeUsed st + usedOf cmDaysUsage ym))
              (round1 (cumulativeAccumulated st + accrualOf tza sites ym
                       - (cumulativeUsed st + usedOf cmDaysUsage ym))),
            mkRunning (cumulativeAccumulated st + accrualOf tza sites ym)
                      (cumulativeUsed st + usedOf cmDaysUsage ym)).
    cbv iota beta.
    specialize (IH (mkRunning (cumulativeAccumulated st + accrualOf tza sites ym)
                              (cumulativeUsed st + usedOf cmDaysUsage ym))).
    cbv zeta in IH.
    destruct (mapMonths tza sites (usageMapOf cmDaysUsage)
                (mkRunning (cumulativeAccumulated st + accrualOf tza sites ym)
                           (cumulativeUsed st + usedOf cmDaysUsage ym)) months)
      as [entries st''].
    destruct IH as [IHentries IHfinal]. split.
    + intros [|n] entry Hn.
      * injection Hn as <-. exists ym. split; reflexivity.
      * destruct (IHentries n entry Hn) as (ym' & Hym' & Hentry).
        exists ym'. split; [exact Hym' | exact Hentry].
    + exact IHfinal.
Qed.

Lemma trackedMonths_without_start (tza clock : Z) (sites : list Site.t) :
  JSString.truthy (getPortfolioStartDate tza sites) = false ->
  trackedMonths tza clock sites = [].
Proof.
  unfold trackedMonths. destruct (getPortfolioStartDate tza sites) as [start|]; simpl.
  - destruct (String.eqb_spec start "") as [->|]; [reflexivity | discriminate].
  - reflexivity.
Qed.

(** The summary in terms of the entries and final sums of [mapMonths]. *)
Lemma calculateCMDaysTracking_unfold (tza clock : Z) (sites : list Site.t)
    (cmDaysUsage : list CMDaysUsage.t) :
  let months := trackedMonths tza clock sites in
  let result := mapMonths tza sites (usageMapOf cmDaysUsage) (mkRunning 0 0) months in
  let summary := calculateCMDaysTracking tza clock sites cmDaysUsage in
  CMDaysTrackingSummary.monthlyData summary = result.1
  /\ CMDaysTrackingSummary.totalAccumulated summary = round1 (cumulativeAccumulated result.2)
  /\ CMDaysTrackingSummary.totalUsed summary = round1 (cumulativeUsed result.2)
  /\ CMDaysTrackingSummary.totalRemaining summary
     = round1 (cumulativeAccumulated result.2 - cumulativeUsed result.2).
Proof.
  intros months result summary. subst summary result months.
  unfold calculateCMDaysTracking.
  destruct (JSString.truthy (getPortfolioStartDate tza sites)) eqn:Hstart; cbn [negb].
  - fold (trackedMonths tza clock sites).
    destruct (mapMonths tza sites (usageMapOf cmDaysUsage) (mkRunning 0 0)
                (trackedMonths tza clock sites)) as [entries st].
    repeat split.
  - rewrite (trackedMonths_without_start tza clock sites Hstart). repeat split.
Qed.

(** C4. The cumulativeRemaining emitted for the month at position [n] of the
    series is the difference of the two running sums over the months up to
    [n], rounded to one decimal place on emission. The running sums add up, in
    month order from 0, the monthly accruals (each the value of the accrual
    formula, [calculateMonthlyCorrectiveDays]) and the monthly usages; no
    rounding is applied to a sum before the next month is added, and the
    emitted cumulativeAccumulated and cumulativeUsed are roundings of the same
    sums. *)
Theorem cumulativeRemaining_from_running_sums (tza clock : Z) (sites : list Site.t)
    (cmDaysUsage : list CMDaysUsage.t) (n : nat) (entry : CMDaysMonthData.t) :
  CMDaysTrackingSummary.monthlyData (calculateCMDaysTracking tza clock sites cmDaysUsage) !! n
    = Some entry ->
  let months := trackedMonths tza clock sites in
  let accumulated := runningAccumulated tza sites months n in
  let used := runningUsed cmDaysUsage months n in
  months !! n = Some (CMDaysMonthData.yearMonth entry)
  /\ CMDaysMonthData.cumulativeAccumulated entry = round1 accumulated
  /\ CMDaysMonthData.cumulativeUsed entry = round1 used
  /\ CMDaysMonthData.cumulativeRemaining entry = round1 (accumulated - used).
Proof.
  intros Hentry months accumulated used.
  destruct (calculateCMDaysTracking_unfold tza clock sites cmDaysUsage) as (Hdata & _).
  rewrite Hdata in Hentry.
  destruct (mapMonths_spec tza sites cmDaysUsage months (mkRunning 0 0)) as [Hentries _].
  destruct (Hentries n entry Hentry) as (ym & Hym & ->).
  repeat split. exact Hym.
Qed.

Lemma cumulativeRemaining_from_running_sums_witness :
  exists entry,
    CMDaysTrackingSummary.monthlyData
      (calculateCMDaysTracking 0 clockApril2024 [exampleSite] [usageInApril 2.5]) !! 3%nat
      = Some entry
    /\ CMDaysMonthData.cumulativeRemaining entry
       = round1 (runningAccumulated 0 [exampleSite]
                   (trackedMonths 0 clockApril2024 [exampleSite]) 3
                 - runningUsed [usageInApril 2.5]
                     (trackedMonths 0 clockApril2024 [exampleSite]) 3).
Proof.
  eexists. split; [vm_compute; reflexivity|].
  apply (cumulativeRemaining_from_running_sums 0 clockApril2024 [exampleSite]
           [usageInApril 2.5] 3).
  vm_compute. reflexivity.
Defined.

(** With no accrual in the month and 1.45 (1.25) days used, daysRemaining is
    emitted as -1.4 (-1.2); half away from zero gives -1.5 (-1.3). *)
Lemma half_away_counterexample :
  ~ emitsHalfAwayFromZero 0 clockApril2024 [smallSite] [usageInApril 1.45]
  /\ ~ emitsHalfAwayFromZero 0 clockApril2024 [smallSite] [usageInApril 1.25].
Proof.
  split; intros H.
  - pose proof (H 0%nat (CMDaysMonthData.mk "2024-04" 0 1.45 (-1.4) 0 1.5 (-1.4))) as H0.
    specialize (H0 ltac:(vm_compute; reflexivity)). float_discriminate H0.
  - pose proof (H 0%nat (CMDaysMonthData.mk "2024-04" 0 1.25 (-1.2) 0 1.3 (-1.2))) as H0.
    specialize (H0 ltac:(vm_compute; reflexivity)). float_discriminate H0.
Qed.

(** C6 (amended). Every emitted CM-days value is [Math.round(10 x) / 10] of
    the value computed for it, each field on its own: the monthly
    daysAccumulated and daysRemaining, the three cumulative fields, the three
    totals and the correctiveDaysAllowed of the portfolio summary.
    [Math.round] sends a tie to the integer above it, so a negative half-way
    value goes towards zero: -1.45 is emitted as -1.4 and -1.25 as -1.2,
    while 1.25 is emitted as 1.3. *)
Theorem emitted_values_rounded (tza clock : Z) (sites : list Site.t)
    (cmDaysUsage : list CMDaysUsage.t) :
  let summary := calculateCMDaysTracking tza clock sites cmDaysUsage in
  let months := trackedMonths tza clock sites in
  (forall n entry,
      CMDaysTrackingSummary.monthlyData summary !! n = Some entry ->
      let ym := CMDaysMonthData.yearMonth entry in
      let accumulated := runningAccumulated tza sites months n in
      let used := runningUsed cmDaysUsage months n in
      CMDaysMonthData.daysAccumulated entry = round1 (accrualOf tza sites ym)
      /\ CMDaysMonthData.daysRemaining entry
         = round1 (accrualOf tza sites ym - usedOf cmDaysUsage ym)
      /\ CMDaysMonthData.cumulativeAccumulated entry = round1 accumulated
      /\ CMDaysMonthData.cumulativeUsed entry = round1 used
      /\ CMDaysMonthData.cumulativeRemaining entry = round1 (accumulated - used))
  /\ CMDaysTrackingSummary.totalAccumulated summary
     = round1 (sumOver (accrualOf tza sites) months)
  /\ CMDaysTrackingSummary.totalUsed summary
     = round1 (sumOver (usedOf cmDaysUsage) months)
  /\ CMDaysTrackingSummary.totalRemaining summary
     = round1 (sumOver (accrualOf tza sites) months - sumOver (usedOf cmDaysUsage) months)
  /\ (forall portfolio,
        calculatePortfolioSummary sites = Return portfolio ->
        PortfolioSummary.correctiveDaysAllowed portfolio
        = round1 (PortfolioSummary.contractedCapacityKwp portfolio / 1000 / 12))
  /\ tiesRoundUp (seqZ (-1000) 2000) = true
  /\ round1 (-1.45) = (-1.4)%float
  /\ round1 (-1.25) = (-1.2)%float
  /\ round1 1.25 = 1.3%float.
Proof.
  intros summary months.
  destruct (calculateCMDaysTracking_unfold tza clock sites cmDaysUsage)
    as (Hdata & Hacc & Hused & Hrem).
  destruct (mapMonths_spec tza sites cmDaysUsage months (mkRunning 0 0))
    as [Hentries Hfinal].
  fold months in Hdata, Hacc, Hused, Hrem. cbv zeta in Hfinal.
  rewrite Hfinal in Hacc, Hused, Hrem.
  split; [|split; [exact Hacc | split; [exact Hused | split; [exact Hrem|]]]].
  - intros n entry Hentry. subst summary. rewrite Hdata in Hentry.
    destruct (Hentries n entry Hentry) as (ym & Hym & ->). repeat split.
  - split; [|repeat split; vm_compute; reflexivity].
    intros portfolio Hportfolio.
    unfold calculatePortfolioSummary in Hportfolio.
    destruct (mapOutcome_default_returns (List.filter isContractedSite sites)) as [rs Hrs].
    rewrite Hrs in Hportfolio. cbn [JS.bind] in Hportfolio.
    destruct (determinePortfolioTier _ DEFAULT_RATE_TIERS) as [tier|];
      [|discriminate Hportfolio].
    cbn [JS.member JS.bind] in Hportfolio. injection Hportfolio as <-. reflexivity.
Qed.

Lemma emitted_values_rounded_witness :
  exists entry,
    CMDaysTrackingSummary.monthlyData
      (calculateCMDaysTracking 0 clockApril2024 [smallSite] [usageInApril 1.25]) !! 0%nat
      = Some entry
    /\ CMDaysMonthData.daysRemaining entry
       = round1 (accrualOf 0 [smallSite] "2024-04" - usedOf [usageInApril 1.25] "2024-04").
Proof.
  eexists. split; [vm_compute; reflexivity|].
  destruct (emitted_values_rounded 0 clockApril2024 [smallSite] [usageInApril 1.25])
    as [Hentries _].
  destruct (Hentries 0%nat _ ltac:(vm_compute; reflexivity)) as (_ & Hrem & _).
  exact Hrem.
Defined.

(** ** Month ends *)

Section MonthEnds.
Local Open Scope Z_scope.

Lemma isLeapYear_cases (y : Z) :
  (JSDate.isLeapYear y = true
   /\ y mod 4 = 0 /\ (y mod 100 <> 0 \/ y mod 400 = 0))
  \/ (JSDate.isLeapYear y = false
      /\ (y mod 4 <> 0 \/ (y mod 100 = 0 /\ y mod 400 <> 0))).
Proof.
  unfold JSDate.isLeapYear.
  destruct (Z.eqb_spec (y mod 4) 0), (Z.eqb_spec (y mod 100) 0), (Z.eqb_spec (y mod 400) 0);
    simpl; intuition lia.
Qed.

Lemma DayFromYear_succ (y : Z) :
  JSDate.DayFromYear (y + 1) = JSDate.DayFromYear y + JSDate.DaysInYear y.
Proof.
  unfold JSDate.DaysInYear, JSDate.DayFromYear.
  destruct (isLeapYear_cases y) as [(-> & H4 & H100) | (-> & H)];
    Z.to_euclidean_division_equations; lia.
Qed.

(** Day 0 of the month after month [m] is the last calendar day of month
    [m] (1 = January), whatever the length of the month and the year. *)
Lemma MakeDay_last_day (y m : Z) :
  1 <= m <= 12 ->
  JSDate.MakeDay y m 0 = JSDate.MakeDay y (m - 1) (JSDate.daysInMonth y m).
Proof.
  intros Hm.
  assert (Hcases : m = 1 \/ m = 2 \/ m = 3 \/ m = 4 \/ m = 5 \/ m = 6 \/ m = 7 \/ m = 8
                   \/ m = 9 \/ m = 10 \/ m = 11 \/ m = 12) by lia.
  unfold JSDate.MakeDay.
  destruct Hcases as [-> | [-> | [-> | [-> | [-> | [-> | [-> | [-> | [-> | [-> | [-> | ->]]]]]]]]]]];
    repeat match goal with
      | |- context [(?a / ?b)] =>
          let v := eval vm_compute in (a / b) in change (a / b) with v
      | |- context [(?a mod ?b)] =>
          let v := eval vm_compute in (a mod b) in change (a mod b) with v
      end;
    cbn [JSDate.monthStart JSDate.daysInMonth];
    rewrite ?Z.add_0_r, ?DayFromYear_succ; unfold JSDate.DaysInYear;
    destruct (JSDate.isLeapYear y); lia.
Qed.

(** The instant [getContractedCapacityKwpForMonth] compares onboard dates
    with is local midnight at the start of the last calendar day. *)
Lemma endOfMonth_instant (tza y m : Z) :
  1 <= m <= 12 -> ~ (0 <= y <= 99) ->
  JSDate.construct tza (Some y) (Some m) (Some 0)
  = JSDate.TimeClip
      (JSDate.MakeDay y (m - 1) (JSDate.daysInMonth y m) * JSDate.msPerDay - tza).
Proof.
  intros Hm Hy. unfold JSDate.construct.
  replace ((0 <=? y) && (y <=? 99)) with false
    by (symmetry; apply andb_false_iff; lia).
  rewrite (MakeDay_last_day y m Hm).
  unfold JSDate.UTC, JSDate.MakeDate, JSDate.MakeTime. f_equal. lia.
Qed.

(** A date-only onboard date on the last calendar day of the month is on or
    before the end-of-month instant exactly when the host is not east of UTC. *)
Lemma last_day_compared (tza y m lastDay : Z) :
  1 <= m <= 12 -> ~ (0 <= y <= 99) ->
  lastDay = JSDate.MakeDay y (m - 1) (JSDate.daysInMonth y m) ->
  Z.abs (lastDay * JSDate.msPerDay) <= 8640000000000000 ->
  Z.abs (lastDay * JSDate.msPerDay - tza) <= 8640000000000000 ->
  JSDate.le (JSDate.TimeClip (JSDate.MakeDate lastDay 0))
            (JSDate.construct tza (Some y) (Some m) (Some 0))
  = (tza <=? 0).
Proof.
  intros Hm Hy -> Hin1 Hin2. rewrite (endOfMonth_instant tza y m Hm Hy).
  unfold JSDate.TimeClip, JSDate.MakeDate.
  rewrite Z.add_0_r.
  destruct (Z.leb_spec (Z.abs (JSDate.MakeDay y (m - 1) (JSDate.daysInMonth y m)
                               * JSDate.msPerDay)) 8640000000000000); [|lia].
  destruct (Z.leb_spec (Z.abs (JSDate.MakeDay y (m - 1) (JSDate.daysInMonth y m)
                               * JSDate.msPerDay - tza)) 8640000000000000); [|lia].
  unfold JSDate.le.
  destruct (Z.leb_spec tza 0), (Z.leb_spec
    (JSDate.MakeDay y (m - 1) (JSDate.daysInMonth y m) * JSDate.msPerDay)
    (JSDate.MakeDay y (m - 1) (JSDate.daysInMonth y m) * JSDate.msPerDay - tza));
    try reflexivity; lia.
Qed.

End MonthEnds.

(** C5 (the code at a failing input). A contracted site of 5000 kWp onboarded
    on 31 July 2024, the last calendar day of the month, is counted in the
    capacity of July 2024 on a host in UTC, but not on a host one hour east of
    UTC, nor, on a host in UTC, when its onboard date carries a time of day. *)
Theorem last_day_onboarding_excluded :
  getContractedCapacityKwpForMonth 0 [siteOnboardedOn "2024-07-31"] "2024-07" = 5000%float
  /\ getContractedCapacityKwpForMonth oneHourEast [siteOnboardedOn "2024-07-31"] "2024-07"
     = 0%float
  /\ getContractedCapacityKwpForMonth 0 [siteOnboardedOn "2024-07-31T09:00:00Z"] "2024-07"
     = 0%float
  /\ JSDate.daysInMonth 2024 7 = 31%Z.
Proof. repeat split; vm_compute; reflexivity. Qed.

(** ** The month loop *)

Section MonthLoop.
Local Open Scope Z_scope.

Lemma YearFromTime_spec (t : Z) :
  JSDate.DayFromYear (JSDate.YearFromTime t) <= JSDate.Day t
  < JSDate.DayFromYear (JSDate.YearFromTime t + 1).
Proof.
  unfold JSDate.YearFromTime.
  set (d := JSDate.Day t). clearbody d.
  set (y0 := 1970 + 400 * d / 146097).
  assert (Hy0 : 146097 * (y0 - 1970) <= 400 * d < 146097 * (y0 - 1970) + 146097).
  { subst y0. Z.to_euclidean_division_equations. lia. }
  clearbody y0.
  destruct (Z.leb_spec (JSDate.DayFromYear (y0 + 1)) d) as [H1|H1].
  - split; [exact H1|]. unfold JSDate.DayFromYear in *.
    Z.to_euclidean_division_equations. lia.
  - destruct (Z.leb_spec (JSDate.DayFromYear y0) d) as [H0|H0].
    + split; assumption.
    + replace (y0 - 1 + 1) with y0 by lia. split; [|exact H0].
      unfold JSDate.DayFromYear in *. Z.to_euclidean_division_equations. lia.
Qed.

Lemma MonthFromTime_range (t : Z) : 0 <= JSDate.MonthFromTime t <= 11.
Proof.
  unfold JSDate.MonthFromTime.
  repeat match goal with
    | |- context [if ?b then _ else _] => destruct b
    end; lia.
Qed.

(** A time value falls on the day its year, month and date make up. *)
Lemma Day_MakeDay (t : Z) :
  JSDate.Day t
  = JSDate.MakeDay (JSDate.YearFromTime t) (JSDate.MonthFromTime t) (JSDate.DateFromTime t).
Proof.
  pose proof (MonthFromTime_range t) as Hm.
  unfold JSDate.MakeDay, JSDate.DateFromTime, JSDate.DayWithinYear.
  rewrite (Z.div_small (JSDate.MonthFromTime t) 12) by lia.
  rewrite (Z.mod_small (JSDate.MonthFromTime t) 12) by lia.
  rewrite Z.add_0_r. lia.
Qed.

(** The same date of the next month is at least 28 days later. *)
Lemma MakeDay_next_month (y m d : Z) :
  0 <= m <= 11 -> JSDate.MakeDay y m d + 28 <= JSDate.MakeDay y (m + 1) d.
Proof.
  intros Hm.
  assert (Hcases : m = 0 \/ m = 1 \/ m = 2 \/ m = 3 \/ m = 4 \/ m = 5 \/ m = 6 \/ m = 7
                   \/ m = 8 \/ m = 9 \/ m = 10 \/ m = 11) by lia.
  unfold JSDate.MakeDay.
  destruct Hcases as [-> | [-> | [-> | [-> | [-> | [-> | [-> | [-> | [-> | [-> | [-> | ->]]]]]]]]]]];
    repeat match goal with
      | |- context [(?a / ?b)] =>
          let v := eval vm_compute in (a / b) in change (a / b) with v
      | |- context [(?a mod ?b)] =>
          let v := eval vm_compute in (a mod b) in change (a mod b) with v
      end;
    cbn [JSDate.monthStart];
    rewrite ?Z.add_0_r, ?DayFromYear_succ; unfold JSDate.DaysInYear;
    destruct (JSDate.isLeapYear y); lia.
Qed.

(** [setMonth(getMonth() + 1)] moves a date forward by at least 28 days. *)
Lemma setMonth_advances (tza start start' : Z) :
  JSDate.setMonth tza (Some start)
    (Some (JSDate.MonthFromTime (JSDate.LocalTime tza start) + 1)) = Some start' ->
  start + 28 * JSDate.msPerDay <= start'.
Proof.
  unfold JSDate.setMonth, JSDate.TimeClip, JSDate.UTC, JSDate.MakeDate.
  set (t := JSDate.LocalTime tza start).
  destruct (Z.abs _ <=? 8640000000000000); [|discriminate].
  intros [= <-].
  pose proof (MakeDay_next_month (JSDate.YearFromTime t) (JSDate.MonthFromTime t)
                (JSDate.DateFromTime t) (MonthFromTime_range t)) as Hnext.
  rewrite <- Day_MakeDay in Hnext.
  assert (Ht : t = JSDate.Day t * JSDate.msPerDay + JSDate.TimeWithinDay t).
  { unfold JSDate.Day, JSDate.TimeWithinDay, JSDate.msPerDay.
    Z.to_euclidean_division_equations. lia. }
  assert (Hstart : start = t - tza) by (subst t; unfold JSDate.LocalTime; lia).
  unfold JSDate.msPerDay in *. lia.
Qed.

(** Fuel beyond one iteration per 28 days between [start] and [now] is never
    used: the loop leaves by its own test. *)
Lemma monthsLoop_fuel_enough (tza : Z) (fuel extra : nat) (start now : Z) :
  now - start < 28 * JSDate.msPerDay * Z.of_nat fuel ->
  monthsLoop tza (fuel + extra) start now = monthsLoop tza fuel start now.
Proof.
  revert start. induction fuel as [|fuel IH]; intros start Hfuel.
  - destruct extra as [|extra]; [reflexivity|]. cbn [Nat.add monthsLoop].
    destruct (Z.leb_spec start now); [unfold JSDate.msPerDay in Hfuel; lia | reflexivity].
  - cbn [Nat.add monthsLoop]. destruct (start <=? now); [|reflexivity].
    f_equal.
    destruct (JSDate.setMonth tza (Some start)
                (Some (JSDate.MonthFromTime (JSDate.LocalTime tza start) + 1)))
      as [start'|] eqn:Hset; [|reflexivity].
    apply IH. apply setMonth_advances in Hset.
    unfold JSDate.msPerDay in *. lia.
Qed.

Lemma monthsFuel_enough (tza : Z) (extra : nat) (start now : Z) :
  monthsLoop tza (monthsFuel start now + extra) start now
  = monthsLoop tza (monthsFuel start now) start now.
Proof.
  apply monthsLoop_fuel_enough. unfold monthsFuel, JSDate.msPerDay.
  destruct (Z.le_gt_cases 0 (now - start)) as [Hpos|Hneg].
  - rewrite Nat2Z.inj_succ, Z2Nat.id by (apply Z.div_pos; lia).
    Z.to_euclidean_division_equations. lia.
  - rewrite Nat2Z.inj_succ. lia.
Qed.

End MonthLoop.

(** ** Order of binary64 numbers *)

Section FloatOrder.
Local Open Scope float_scope.

Lemma SFleb_SFltb_trans (x y z : spec_float) :
  SFleb x y = true -> SFltb y z = true -> SFltb x z = true.
Proof.
  unfold SFleb, SFltb.
  destruct x as [sx|sx| |sx mx ex], y as [sy|sy| |sy my ey], z as [sz|sz| |sz mz ez];
    try destruct sx; try destruct sy; try destruct sz; simpl;
    try reflexivity; try discriminate;
    rewrite ?Pos.compare_cont_spec; unfold Pos.switch_Eq;
    destruct (Z.compare_spec ex ey), (Z.compare_spec ey ez), (Z.compare_spec ex ez);
    try lia; try reflexivity; try discriminate;
    destruct (Pos.compare_spec mx my), (Pos.compare_spec my mz), (Pos.compare_spec mx mz);
    simpl; try lia; try reflexivity; try discriminate.
Qed.

(** [x <= y] and [y < z] give [x < z]. *)
Lemma leb_ltb_trans (x y z : float) :
  (x <=? y) = true -> (y <? z) = true -> (x <? z) = true.
Proof.
  rewrite FloatAxioms.leb_spec, !FloatAxioms.ltb_spec. apply SFleb_SFltb_trans.
Qed.

(** Subtracting 0 changes nothing. *)
Lemma sub_zero_r (x : float) : x - 0 = x.
Proof.
  apply Prim2SF_inj. rewrite FloatAxioms.sub_spec.
  change (Prim2SF 0) with (S754_zero false).
  destruct (Prim2SF x) as [[]|[]| |[] m e]; reflexivity.
Qed.

End FloatOrder.

(** ** Tier selection over capacities and tables *)

Lemma tierAccepts_antitone (c1 c2 : float) (tier : RateTier.t) :
  (c1 <=? c2)%float = true -> tierAccepts c2 tier = true -> tierAccepts c1 tier = true.
Proof.
  unfold tierAccepts. destruct (RateTier.maxCapacityMW tier) as [maxMW|]; [|reflexivity].
  apply leb_ltb_trans.
Qed.

Lemma find_lookup {A : Type} (f : A -> bool) (l : list A) (a : A) :
  List.find f l = Some a -> exists i, l !! i = Some a.
Proof.
  intros H. apply find_some in H as [Hin _].
  apply list_elem_of_In, list_elem_of_lookup in Hin. exact Hin.
Qed.

Lemma find_weaker_earlier {A : Type} (f1 f2 : A -> bool) (l : list A) (a2 : A) :
  (forall a, f2 a = true -> f1 a = true) ->
  List.find f2 l = Some a2 ->
  exists a1 i j,
    List.find f1 l = Some a1 /\ (i <= j)%nat /\ l !! i = Some a1 /\ l !! j = Some a2.
Proof.
  intros Hweak. induction l as [|a l IH]; [discriminate|].
  simpl. destruct (f1 a) eqn:H1.
  - intros H2. destruct (find_lookup f2 (a :: l) a2) as [j Hj].
    { simpl. exact H2. }
    exists a, 0%nat, j. repeat split; [lia | exact Hj].
  - destruct (f2 a) eqn:H2; [rewrite (Hweak a H2) in H1; discriminate|].
    intros Hfind. destruct (IH Hfind) as (a1 & i & j & Hf & Hij & Hi & Hj).
    exists a1, (S i), (S j). repeat split; [exact Hf | lia | exact Hi | exact Hj].
Qed.

(** X1. Raising the capacity never selects an earlier tier of the table:
    for capacities [c1 <= c2], the tier selected for [c1] stands at a
    position of the table not after that of the tier selected for [c2]. *)
Theorem tier_selection_monotone (c1 c2 : float) (tiers : list RateTier.t)
    (t1 t2 : RateTier.t) :
  (c1 <=? c2)%float = true ->
  determinePortfolioTier c1 tiers = Some t1 ->
  determinePortfolioTier c2 tiers = Some t2 ->
  exists i j, (i <= j)%nat /\ tiers !! i = Some t1 /\ tiers !! j = Some t2.
Proof.
  intros Hle. rewrite !determinePortfolioTier_selectTier. unfold selectTier.
  destruct (List.find (tierAccepts c2) tiers) as [a2|] eqn:H2.
  - destruct (find_weaker_earlier (tierAccepts c1) (tierAccepts c2) tiers a2
                (fun t => tierAccepts_antitone c1 c2 t Hle) H2)
      as (a1 & i & j & -> & Hij & Hi & Hj).
    intros [= <-] [= <-]. exists i, j. auto.
  - rewrite last_lookup.
    destruct (List.find (tierAccepts c1) tiers) as [a1|] eqn:H1.
    + intros [= <-] Hlast. destruct (find_lookup _ _ _ H1) as [i Hi].
      exists i, (pred (length tiers)). repeat split; [|exact Hi | exact Hlast].
      apply lookup_lt_Some in Hi. lia.
    + intros H1' H2'. exists (pred (length tiers)), (pred (length tiers)). auto.
Qed.

Lemma tier_selection_monotone_witness :
  exists i j,
    (i <= j)%nat
    /\ option_map RateTier.tierName (DEFAULT_RATE_TIERS !! i) = Some "<20MW"
    /\ option_map RateTier.tierName (DEFAULT_RATE_TIERS !! j) = Some "30-40MW".
Proof.
  destruct (tier_selection_monotone 12.5 35 DEFAULT_RATE_TIERS
              (RateTier.mk "1" "<20MW" 0 (Some 20%float) 2.0)
              (RateTier.mk "3" "30-40MW" 30 (Some 40%float) 1.7)
              eq_refl eq_refl eq_refl) as (i & j & Hij & Hi & Hj).
  exists i, j. rewrite Hi, Hj. auto.
Defined.

(** X2. On a table with at least one tier the selection always returns a
    tier of the table; it returns [undefined] exactly on the empty table. *)
Theorem tier_selection_defined (capacityMW : float) (tiers : list RateTier.t) :
  (determinePortfolioTier capacityMW tiers = None <-> tiers = [])
  /\ (forall tier, determinePortfolioTier capacityMW tiers = Some tier -> In tier tiers).
Proof.
  rewrite determinePortfolioTier_selectTier. unfold selectTier. split.
  - split.
    + destruct (List.find (tierAccepts capacityMW) tiers); [discriminate|].
      rewrite last_None. auto.
    + intros ->. reflexivity.
  - intros tier. destruct (List.find (tierAccepts capacityMW) tiers) as [a|] eqn:Hfind.
    + intros [= <-]. apply find_some in Hfind. tauto.
    + rewrite last_lookup. intros H. apply list_elem_of_In.
      eapply list_elem_of_lookup_2. exact H.
Qed.

Lemma tier_selection_defined_witness :
  In (RateTier.mk "3" "30-40MW" 30 (Some 40%float) 1.7) DEFAULT_RATE_TIERS
  /\ determinePortfolioTier 5 [] = None.
Proof.
  destruct (tier_selection_defined 45 DEFAULT_RATE_TIERS) as [_ Hin].
  destruct (tier_selection_defined 5 []) as [[_ Hnone] _].
  split; [apply Hin; reflexivity | apply Hnone; reflexivity].
Defined.

(** ** The calculator over tier tables *)

(** X3. The calculator throws exactly when one of its three tier lookups
    finds no tier, neither by name nor by position, whatever the site; so it
    throws on every table of fewer than three tiers in which no tier is named
    "30-40MW", the empty table included. *)
Theorem calculator_throws_iff (site : Site.t) (tiers : list RateTier.t) :
  (calculateSiteWithAllTiers site tiers = TypeError
   <-> baseTier tiers = None \/ tier30Of tiers = None \/ tier40Of tiers = None)
  /\ ((length tiers < 3)%nat -> findTierNamed "30-40MW" tiers = None ->
      calculateSiteWithAllTiers site tiers = TypeError).
Proof.
  assert (Hiff : calculateSiteWithAllTiers site tiers = TypeError
                 <-> baseTier tiers = None \/ tier30Of tiers = None
                     \/ tier40Of tiers = None).
  { unfold calculateSiteWithAllTiers, baseTier, tier30Of, tier40Of.
    destruct (orElse (findTierNamed "<20MW" tiers) (tiers !! 0%nat)) as [t20|];
      [|simpl; tauto].
    destruct (orElse (findTierNamed "20-30MW" tiers) (tiers !! 1%nat)) as [t30|];
      [|simpl; tauto].
    destruct (orElse (findTierNamed "30-40MW" tiers) (tiers !! 2%nat)) as [t40|];
      [|simpl; tauto].
    simpl. split; [discriminate | intros [H | [H | H]]; discriminate]. }
  split; [exact Hiff|].
  intros Hlen Hname. apply Hiff. right. right.
  unfold tier40Of. rewrite Hname. simpl. apply lookup_ge_None. lia.
Qed.

Lemma calculator_throws_iff_witness :
  calculateSiteWithAllTiers exampleSite [] = TypeError
  /\ calculateSiteWithAllTiers exampleSite (take 2 DEFAULT_RATE_TIERS) = TypeError.
Proof.
  split.
  - apply (calculator_throws_iff exampleSite []); [simpl; lia | reflexivity].
  - apply (calculator_throws_iff exampleSite (take 2 DEFAULT_RATE_TIERS));
      [simpl; lia | reflexivity].
Defined.

Lemma findTierNamed_Some (nm : string) (tiers : list RateTier.t) (tier : RateTier.t) :
  NoDup (map RateTier.tierName tiers) ->
  findTierNamed nm tiers = Some tier <-> In tier tiers /\ RateTier.tierName tier = nm.
Proof.
  unfold findTierNamed. induction tiers as [|a tiers IH]; simpl.
  - intros _. split; [discriminate | tauto].
  - intros Hnd. apply NoDup_cons in Hnd as [Hnotin Hnd].
    destruct (String.eqb_spec (RateTier.tierName a) nm) as [Hnm|Hnm].
    + split.
      * intros [= <-]. auto.
      * intros [[<- | Hin] Hname]; [reflexivity|].
        exfalso. apply Hnotin. rewrite Hnm, <- Hname.
        apply list_elem_of_In, in_map, Hin.
    + rewrite (IH Hnd). split.
      * intros [Hin Hname]. auto.
      * intros [[<- | Hin] Hname]; [contradiction | auto].
Qed.

Lemma findTierNamed_permutation (nm : string) (tiers tiers' : list RateTier.t) :
  NoDup (map RateTier.tierName tiers) -> tiers ≡ₚ tiers' ->
  findTierNamed nm tiers = findTierNamed nm tiers'.
Proof.
  intros Hnd Hperm.
  assert (Hnd' : NoDup (map RateTier.tierName tiers')).
  { pose proof (Permutation_map RateTier.tierName Hperm) as Hnames.
    rewrite <- Hnames. exact Hnd. }
  destruct (findTierNamed nm tiers) as [t|] eqn:H.
  - symmetry. apply (findTierNamed_Some nm tiers' t Hnd').
    apply (findTierNamed_Some nm tiers t Hnd) in H as [Hin Hname].
    split; [|exact Hname]. eapply Permutation_in; eassumption.
  - destruct (findTierNamed nm tiers') as [t'|] eqn:H'; [|reflexivity].
    apply (findTierNamed_Some nm tiers' t' Hnd') in H' as [Hin Hname].
    assert (Hf : findTierNamed nm tiers = Some t').
    { apply (findTierNamed_Some nm tiers t' Hnd). split; [|exact Hname].
      eapply Permutation_in; [symmetry|]; eassumption. }
    congruence.
Qed.

(** X4. The three fee columns are found by tier name: for a table whose tier
    names are distinct and include "<20MW", "20-30MW" and "30-40MW", the
    calculator returns the same record for every reordering of the table. *)
Theorem calculator_ignores_tier_order (site : Site.t) (tiers tiers' : list RateTier.t) :
  NoDup (map RateTier.tierName tiers) ->
  tiers ≡ₚ tiers' ->
  is_Some (findTierNamed "<20MW" tiers) ->
  is_Some (findTierNamed "20-30MW" tiers) ->
  is_Some (findTierNamed "30-40MW" tiers) ->
  calculateSiteWithAllTiers site tiers' = calculateSiteWithAllTiers site tiers.
Proof.
  intros Hnd Hperm [t20 H20] [t30 H30] [t40 H40].
  unfold calculateSiteWithAllTiers.
  rewrite <- !(findTierNamed_permutation _ tiers tiers' Hnd Hperm).
  rewrite H20, H30, H40. reflexivity.
Qed.

Lemma calculator_ignores_tier_order_witness :
  calculateSiteWithAllTiers exampleSite (reverse DEFAULT_RATE_TIERS)
  = calculateSiteWithAllTiers exampleSite DEFAULT_RATE_TIERS.
Proof.
  apply (calculator_ignores_tier_order exampleSite DEFAULT_RATE_TIERS).
  - apply NoDup_ListNoDup. repeat constructor; simpl; intuition discriminate.
  - symmetry. apply reverse_Permutation.
  - eexists. reflexivity.
  - eexists. reflexivity.
  - eexists. reflexivity.
Defined.

(** ** Portfolio summary *)

Lemma mapOutcome_Forall2 {A B : Type} (f : A -> outcome B) (l : list A) (rs : list B) :
  mapOutcome f l = Return rs -> Forall2 (fun a r => f a = Return r) l rs.
Proof.
  revert rs. induction l as [|a l IH]; cbn [mapOutcome]; intros rs.
  - intros [= <-]. constructor.
  - destruct (f a) as [r|] eqn:Hfa; [|discriminate]. cbn [JS.bind].
    destruct (mapOutcome f l) as [rs'|]; [|discriminate]. cbn [JS.bind].
    intros [= <-]. constructor; [exact Hfa | apply IH; reflexivity].
Qed.

Lemma sumBy_Forall2 {A B : Type} (g : A -> float) (h : B -> float)
    (l : list A) (rs : list B) :
  Forall2 (fun a r => h r = g a) l rs -> sumBy h rs = sumBy g l.
Proof.
  unfold sumBy. generalize 0%float.
  intros start H. revert start. induction H as [|a r l rs Hhead _ IH]; intros start.
  - reflexivity.
  - simpl. rewrite Hhead. apply IH.
Qed.

(** X5. The summary is returned for every list of sites, the empty one
    included: no tier lookup fails on the default table, and the current tier
    is the name of one of its three tiers. *)
Theorem summary_always_returned (sites : list Site.t) :
  exists summary,
    calculatePortfolioSummary sites = Return summary
    /\ In (PortfolioSummary.currentTier summary) ["<20MW"; "20-30MW"; "30-40MW"]
    /\ PortfolioSummary.totalSites summary = lengthNum sites
    /\ PortfolioSummary.contractedSites summary
       = lengthNum (List.filter isContractedSite sites)
    /\ PortfolioSummary.totalCapacityKwp summary = sumBy Site.systemSizeKwp sites.
Proof.
  unfold calculatePortfolioSummary.
  destruct (mapOutcome_default_returns (List.filter isContractedSite sites)) as [rs ->].
  cbn [JS.bind].
  set (capacityMW := (sumBy Site.systemSizeKwp (List.filter isContractedSite sites) / 1000)%float).
  destruct (selectTier_default_some capacityMW) as [tier Htier].
  rewrite <- determinePortfolioTier_selectTier in Htier. rewrite Htier.
  cbn [JS.member JS.bind]. eexists. split; [reflexivity|].
  cbn [PortfolioSummary.currentTier PortfolioSummary.totalSites
       PortfolioSummary.contractedSites PortfolioSummary.totalCapacityKwp].
  repeat split.
  rewrite determinePortfolioTier_selectTier in Htier. unfold selectTier in Htier.
  simpl in Htier.
  repeat match type of Htier with
    | context [tierAccepts ?c ?t] => destruct (tierAccepts c t)
    end; injection Htier as <-; simpl; tauto.
Qed.

(** X6. The total monthly fee is the sum, over the contracted sites in list
    order, of each site's fixed costs plus its size times 2.0, divided by 12:
    sites that are not contracted add nothing, and the rate is that of the
    "<20MW" tier whatever the current tier of the portfolio is. *)
Theorem totalMonthlyFee_at_base_rate (sites : list Site.t)
    (summary : PortfolioSummary.t) :
  calculatePortfolioSummary sites = Return summary ->
  PortfolioSummary.totalMonthlyFee summary
  = sumBy baseMonthlyFee (List.filter isContractedSite sites).
Proof.
  unfold calculatePortfolioSummary.
  destruct (mapOutcome (fun s => calculateSiteWithAllTiers s DEFAULT_RATE_TIERS)
              (List.filter isContractedSite sites)) as [rs|] eqn:Hrs; [|discriminate].
  cbn [JS.bind].
  destruct (determinePortfolioTier _ DEFAULT_RATE_TIERS) as [tier|]; [|discriminate].
  cbn [JS.member JS.bind]. intros [= <-]. cbn [PortfolioSummary.totalMonthlyFee].
  apply sumBy_Forall2. apply mapOutcome_Forall2 in Hrs.
  assert (Hall : Forall (fun s => isContractedSite s = true)
                   (List.filter isContractedSite sites)).
  { apply Forall_forall. intros s Hin. apply list_elem_of_In, filter_In in Hin. tauto. }
  induction Hrs as [|s r l rs' Hhead _ IH]; [constructor|].
  apply Forall_cons in Hall as [Hs Hall]. constructor; [|exact (IH Hall)].
  unfold calculateSiteWithAllTiers in Hhead. simpl in Hhead.
  injection Hhead as <-. cbn [SiteWithCalculations.monthlyFee].
  unfold isContractedSite in Hs. rewrite Hs. reflexivity.
Qed.

Lemma totalMonthlyFee_at_base_rate_witness :
  exists summary,
    calculatePortfolioSummary [exampleSite; prospectSite; site15MW] = Return summary
    /\ PortfolioSummary.currentTier summary = "20-30MW"
    /\ PortfolioSummary.totalMonthlyFee summary
       = sumBy baseMonthlyFee [exampleSite; site15MW].
Proof.
  eexists. split; [vm_compute; reflexivity|]. split; [reflexivity|].
  apply (totalMonthlyFee_at_base_rate [exampleSite; prospectSite; site15MW]).
  vm_compute. reflexivity.
Defined.

Lemma countSpv_keys (sites : list Site.t) (counts : gmap string float) (key : string) :
  is_Some (fold_left countSpv sites counts !! key)
  <-> is_Some (counts !! key) \/ exists site, In site sites /\ spvLabel site = key.
Proof.
  revert counts. induction sites as [|s sites IH]; intros counts; simpl.
  - split; [auto | intros [H | (site & [] & _)]; exact H].
  - rewrite IH. unfold countSpv at 1. fold (spvLabel s).
    rewrite lookup_insert_is_Some. split.
    + intros [[Hkey | [_ Hold]] | (site & Hin & Hlabel)]; eauto.
    + intros [Hold | (site & [<- | Hin] & Hlabel)]; eauto.
      destruct (decide (spvLabel s = key)); auto.
Qed.



(** ** The monthly series *)

Lemma mapMonths_keys (tza : Z) (sites : list Site.t) (usageMap : gmap string float)
    (st : running) (months : list string) :
  map CMDaysMonthData.yearMonth (mapMonths tza sites usageMap st months).1 = months.
Proof.
  revert st. induction months as [|ym months IH]; intros st; [reflexivity|].
  cbn [mapMonths]. unfold monthStep at 1. cbv zeta.
  specialize (IH (mkRunning
                    (cumulativeAccumulated st
                     + calculateMonthlyCorrectiveDays
                         (getContractedCapacityKwpForMonth tza sites ym / 1000))%float
                    (cumulativeUsed st + orZero (usageMap !! ym))%float)).
  destruct (mapMonths tza sites usageMap _ months) as [entries st''].
  simpl in IH |- *. rewrite IH. reflexivity.
Qed.

(** X8. The series has one entry per month key produced by
    [getMonthsFromStart], in the same order and under the same key. *)
Theorem monthlyData_keys (tza clock : Z) (sites : list Site.t)
    (cmDaysUsage : list CMDaysUsage.t) :
  map CMDaysMonthData.yearMonth
    (CMDaysTrackingSummary.monthlyData (calculateCMDaysTracking tza clock sites cmDaysUsage))
  = trackedMonths tza clock sites.
Proof.
  destruct (calculateCMDaysTracking_unfold tza clock sites cmDaysUsage) as (-> & _).
  apply mapMonths_keys.
Qed.

(** X9. The three totals are the cumulative values of the last entry of the
    series, and are 0 when the series is empty. *)
Theorem totals_are_last_cumulatives (tza clock : Z) (sites : list Site.t)
    (cmDaysUsage : list CMDaysUsage.t) :
  let summary := calculateCMDaysTracking tza clock sites cmDaysUsage in
  (forall entry,
      last (CMDaysTrackingSummary.monthlyData summary) = Some entry ->
      CMDaysTrackingSummary.totalAccumulated summary
        = CMDaysMonthData.cumulativeAccumulated entry
      /\ CMDaysTrackingSummary.totalUsed summary = CMDaysMonthData.cumulativeUsed entry
      /\ CMDaysTrackingSummary.totalRemaining summary
         = CMDaysMonthData.cumulativeRemaining entry)
  /\ (CMDaysTrackingSummary.monthlyData summary = [] ->
      CMDaysTrackingSummary.totalAccumulated summary = 0%float
      /\ CMDaysTrackingSummary.totalUsed summary = 0%float
      /\ CMDaysTrackingSummary.totalRemaining summary = 0%float).
Proof.
  intros summary.
  pose proof (monthlyData_keys tza clock sites cmDaysUsage) as Hkeys.
  destruct (calculateCMDaysTracking_unfold tza clock sites cmDaysUsage)
    as (Hdata & Hacc & Hused & Hrem).
  destruct (mapMonths_spec tza sites cmDaysUsage (trackedMonths tza clock sites)
              (mkRunning 0 0)) as [Hentries Hfinal].
  cbv zeta in Hfinal. rewrite Hfinal in Hacc, Hused, Hrem.
  cbn [cumulativeAccumulated cumulativeUsed] in Hacc, Hused, Hrem.
  fold summary in Hkeys, Hdata, Hacc, Hused, Hrem.
  assert (Hlen : length (CMDaysTrackingSummary.monthlyData summary)
                 = length (trackedMonths tza clock sites))
    by (pose proof (f_equal length Hkeys) as Hl; rewrite length_map in Hl; exact Hl).
  split.
  - intros entry Hlast. rewrite last_lookup, Hdata in Hlast.
    destruct (Hentries _ _ Hlast) as (ym & _ & ->).
    cbn [CMDaysMonthData.cumulativeAccumulated CMDaysMonthData.cumulativeUsed
         CMDaysMonthData.cumulativeRemaining cumulativeAccumulated cumulativeUsed].
    rewrite <- Hdata, Hlen.
    assert (Hnonempty : (0 < length (trackedMonths tza clock sites))%nat).
    { rewrite <- Hlen, Hdata. apply lookup_lt_Some in Hlast. lia. }
    rewrite take_ge by lia.
    rewrite Hacc, Hused, Hrem. repeat split.
  - intros Hempty. rewrite Hempty in Hlen. symmetry in Hlen.
    apply nil_length_inv in Hlen. rewrite Hlen in Hacc, Hused, Hrem.
    rewrite Hacc, Hused, Hrem. repeat split.
Qed.

Lemma totals_are_last_cumulatives_witness :
  exists entry,
    last (CMDaysTrackingSummary.monthlyData
            (calculateCMDaysTracking 0 clockApril2024 [exampleSite] [usageInApril 2.5]))
      = Some entry
    /\ CMDaysTrackingSummary.totalRemaining
         (calculateCMDaysTracking 0 clockApril2024 [exampleSite] [usageInApril 2.5])
       = CMDaysMonthData.cumulativeRemaining entry.
Proof.
  eexists. split; [vm_compute; reflexivity|].
  destruct (totals_are_last_cumulatives 0 clockApril2024 [exampleSite] [usageInApril 2.5])
    as [Hlast _].
  destruct (Hlast _ ltac:(vm_compute; reflexivity)) as (_ & _ & Hrem). exact Hrem.
Defined.

Lemma fold_left_add_ext (f g : string -> float) (months : list string) (start : float) :
  (forall ym, f ym = g ym) ->
  fold_left (fun sum ym => (sum + f ym)%float) months start
  = fold_left (fun sum ym => (sum + g ym)%float) months start.
Proof.
  intros Hfg. revert start. induction months as [|ym months IH]; intros start;
    [reflexivity|].
  simpl. rewrite Hfg. apply IH.
Qed.

Lemma fold_left_add_zero (months : list string) :
  fold_left (fun sum (_ : string) => (sum + 0)%float) months 0%float = 0%float.
Proof. induction months as [|ym months IH]; [reflexivity | exact IH]. Qed.

(** X10. With no usage record at all, every entry of the series has
    daysUsed and cumulativeUsed 0, its daysRemaining equal to its
    daysAccumulated and its cumulativeRemaining equal to its
    cumulativeAccumulated. *)
Theorem no_usage_nothing_used (tza clock : Z) (sites : list Site.t)
    (n : nat) (entry : CMDaysMonthData.t) :
  CMDaysTrackingSummary.monthlyData (calculateCMDaysTracking tza clock sites []) !! n
    = Some entry ->
  CMDaysMonthData.daysUsed entry = 0%float
  /\ CMDaysMonthData.cumulativeUsed entry = 0%float
  /\ CMDaysMonthData.daysRemaining entry = CMDaysMonthData.daysAccumulated entry
  /\ CMDaysMonthData.cumulativeRemaining entry
     = CMDaysMonthData.cumulativeAccumulated entry.
Proof.
  intros Hentry.
  destruct (calculateCMDaysTracking_unfold tza clock sites []) as (Hdata & _).
  rewrite Hdata in Hentry.
  destruct (mapMonths_spec tza sites [] (trackedMonths tza clock sites) (mkRunning 0 0))
    as [Hentries _].
  destruct (Hentries n entry Hentry) as (ym & _ & ->).
  cbn [CMDaysMonthData.daysUsed CMDaysMonthData.cumulativeUsed
       CMDaysMonthData.daysRemaining CMDaysMonthData.daysAccumulated
       CMDaysMonthData.cumulativeRemaining CMDaysMonthData.cumulativeAccumulated
       cumulativeAccumulated cumulativeUsed].
  assert (Hused : forall m, usedOf [] m = 0%float) by reflexivity.
  rewrite (fold_left_add_ext (usedOf []) (fun _ => 0%float) _ _ Hused).
  rewrite fold_left_add_zero, Hused, !sub_zero_r. repeat split.
Qed.

Lemma no_usage_nothing_used_witness :
  exists entry,
    CMDaysTrackingSummary.monthlyData
      (calculateCMDaysTracking 0 clockApril2024 [exampleSite] []) !! 2%nat = Some entry
    /\ CMDaysMonthData.cumulativeRemaining entry
       = CMDaysMonthData.cumulativeAccumulated entry.
Proof.
  eexists. split; [vm_compute; reflexivity|].
  apply (no_usage_nothing_used 0 clockApril2024 [exampleSite] 2).
  vm_compute. reflexivity.
Defined.

(** ** Usage records *)

Lemma usageMapOf_lookup_from (cmDaysUsage : list CMDaysUsage.t)
    (usageMap : gmap string float) (ym : string) :
  fold_left (fun m u => <[CMDaysUsage.yearMonth u := CMDaysUsage.daysUsed u]> m)
    cmDaysUsage usageMap !! ym
  = fold_left
      (fun found u =>
         if String.eqb (CMDaysUsage.yearMonth u) ym
         then Some (CMDaysUsage.daysUsed u) else found)
      cmDaysUsage (usageMap !! ym).
Proof.
  revert usageMap. induction cmDaysUsage as [|u l IH]; intros usageMap; [reflexivity|].
  simpl. rewrite IH. f_equal.
  destruct (String.eqb_spec (CMDaysUsage.yearMonth u) ym) as [->|Hne].
  - apply lookup_insert_eq.
  - apply lookup_insert_ne, Hne.
Qed.

Lemma usageMapOf_lookup (cmDaysUsage : list CMDaysUsage.t) (ym : string) :
  usageMapOf cmDaysUsage !! ym = lastRecorded ym cmDaysUsage.
Proof. unfold usageMapOf, lastRecorded. rewrite usageMapOf_lookup_from. reflexivity. Qed.

Lemma lastRecorded_app (ym : string) (l1 l2 : list CMDaysUsage.t) :
  lastRecorded ym (l1 ++ l2)
  = match lastRecorded ym l2 with
    | Some d => Some d
    | None => lastRecorded ym l1
    end.
Proof.
  unfold lastRecorded. rewrite fold_left_app.
  generalize (fold_left
                (fun found u =>
                   if String.eqb (CMDaysUsage.yearMonth u) ym
                   then Some (CMDaysUsage.daysUsed u) else found) l1 None).
  intros start. revert start. induction l2 as [|u l2 IH]; intros start.
  - reflexivity.
  - simpl. destruct (String.eqb (CMDaysUsage.yearMonth u) ym).
    + rewrite IH. symmetry. rewrite IH.
      destruct (fold_left _ l2 None); reflexivity.
    + rewrite IH. reflexivity.
Qed.

Lemma lastRecorded_none (ym : string) (l : list CMDaysUsage.t) :
  (forall u, In u l -> CMDaysUsage.yearMonth u <> ym) -> lastRecorded ym l = None.
Proof.
  unfold lastRecorded. induction l as [|u l IH]; [reflexivity|].
  intros Hne. simpl.
  destruct (String.eqb_spec (CMDaysUsage.yearMonth u) ym) as [Heq|_].
  - exfalso. apply (Hne u); [left; reflexivity | exact Heq].
  - apply IH. intros v Hin. apply Hne. right. exact Hin.
Qed.

(** X11. The usage counted for a month is the daysUsed of the last record
    with that key in the list, earlier records for the same month being
    overridden; it is 0 when no record has the key, and also when the value
    recorded is 0 or NaN. *)
Theorem usage_last_record_wins (before after : list CMDaysUsage.t)
    (u : CMDaysUsage.t) (yearMonth : string) :
  (forall v, In v after -> CMDaysUsage.yearMonth v <> CMDaysUsage.yearMonth u) ->
  usedOf (before ++ u :: after) (CMDaysUsage.yearMonth u)
  = (if JS.truthy (CMDaysUsage.daysUsed u) then CMDaysUsage.daysUsed u else 0%float)
  /\ ((forall v, In v (before ++ u :: after) -> CMDaysUsage.yearMonth v <> yearMonth) ->
      usedOf (before ++ u :: after) yearMonth = 0%float).
Proof.
  intros Hafter. unfold usedOf. rewrite !usageMapOf_lookup. split.
  - rewrite lastRecorded_app.
    change (u :: after) with ([u] ++ after). rewrite lastRecorded_app.
    rewrite (lastRecorded_none _ after Hafter).
    unfold lastRecorded at 1. simpl. rewrite String.eqb_refl. reflexivity.
  - intros Hnone. rewrite (lastRecorded_none _ _ Hnone). reflexivity.
Qed.

Lemma usage_last_record_wins_witness :
  usedOf [usageFor "2024-03" 1; usageFor "2024-04" 4; usageFor "2024-04" 2.5]
    "2024-04" = 2.5%float
  /\ usedOf [usageFor "2024-03" 1; usageFor "2024-04" 4; usageFor "2024-04" 2.5]
       "2024-05" = 0%float.
Proof.
  destruct (usage_last_record_wins [usageFor "2024-03" 1; usageFor "2024-04" 4] []
              (usageFor "2024-04" 2.5) "2024-05") as [Hlast Hnone].
  { intros v []. }
  split; [exact Hlast|].
  apply Hnone. intros v [<- | [<- | [<- | []]]]; discriminate.
Defined.

Lemma mapMonths_usage_ext (tza : Z) (sites : list Site.t)
    (usageMap usageMap' : gmap string float) (st : running) (months : list string) :
  (forall ym, In ym months -> usageMap !! ym = usageMap' !! ym) ->
  mapMonths tza sites usageMap st months = mapMonths tza sites usageMap' st months.
Proof.
  revert st. induction months as [|ym months IH]; intros st Hsame; [reflexivity|].
  cbn [mapMonths]. unfold monthStep.
  rewrite (Hsame ym (or_introl eq_refl)).
  rewrite IH by (intros ym' Hin; apply Hsame; right; exact Hin).
  reflexivity.
Qed.

(** X12. A usage record whose key is not a month of the series changes
    nothing in the summary: a record for a month before the start, after the
    current month, or with a key that is no month at all, is ignored. *)
Theorem usage_outside_series_ignored (tza clock : Z) (sites : list Site.t)
    (before after : list CMDaysUsage.t) (u : CMDaysUsage.t) :
  ~ In (CMDaysUsage.yearMonth u) (trackedMonths tza clock sites) ->
  calculateCMDaysTracking tza clock sites (before ++ u :: after)
  = calculateCMDaysTracking tza clock sites (before ++ after).
Proof.
  intros Hout. unfold calculateCMDaysTracking.
  destruct (negb (JSString.truthy (getPortfolioStartDate tza sites))); [reflexivity|].
  fold (trackedMonths tza clock sites).
  rewrite (mapMonths_usage_ext tza sites (usageMapOf (before ++ u :: after))
             (usageMapOf (before ++ after))); [reflexivity|].
  intros ym Hin. rewrite !usageMapOf_lookup, !lastRecorded_app.
  change (u :: after) with ([u] ++ after). rewrite lastRecorded_app.
  destruct (lastRecorded ym after); [reflexivity|].
  unfold lastRecorded at 1. simpl.
  destruct (String.eqb_spec (CMDaysUsage.yearMonth u) ym) as [Heq|_]; [|reflexivity].
  exfalso. apply Hout. rewrite Heq. exact Hin.
Qed.

Lemma usage_outside_series_ignored_witness :
  calculateCMDaysTracking 0 clockApril2024 [exampleSite]
    [usageFor "2024-02" 1; usageFor "2024-13" 7; usageFor "2024-03" 2]
  = calculateCMDaysTracking 0 clockApril2024 [exampleSite]
      [usageFor "2024-02" 1; usageFor "2024-03" 2].
Proof.
  apply (usage_outside_series_ignored 0 clockApril2024 [exampleSite]
           [usageFor "2024-02" 1] [usageFor "2024-03" 2] (usageFor "2024-13" 7)).
  vm_compute. intuition discriminate.
Defined.

(** ** The portfolio start date *)

Lemma insertSorted_Permutation (tza : Z) (a : string) (sorted : list string) :
  insertSorted tza a sorted ≡ₚ a :: sorted.
Proof.
  induction sorted as [|b sorted IH]; simpl; [reflexivity|].
  destruct (keepsBefore tza a b); [reflexivity|].
  rewrite IH. apply Permutation_swap.
Qed.

Lemma sortDates_Permutation (tza : Z) (dates : list string) :
  sortDates tza dates ≡ₚ dates.
Proof.
  unfold sortDates. induction dates as [|a dates IH]; simpl; [reflexivity|].
  rewrite insertSorted_Permutation, IH. reflexivity.
Qed.

Lemma datedContracts_empty (sites : list Site.t) :
  List.filter isDatedContract sites = []
  <-> forall s, In s sites -> Site.contractStatus s = Yes ->
                JSString.truthy (Site.onboardDate s) = false.
Proof.
  induction sites as [|s sites IH]; simpl.
  - split; [intros _ s [] | reflexivity].
  - unfold isDatedContract at 1, isContractedSite. split.
    + destruct (ContractStatus_eqb (Site.contractStatus s) Yes
                && JSString.truthy (Site.onboardDate s)) eqn:Hs; [discriminate|].
      intros Hrest s' [<- | Hin] Hyes.
      * rewrite Hyes in Hs. exact Hs.
      * apply IH; assumption.
    + intros Hall.
      destruct (Site.contractStatus s) eqn:Hstatus; simpl.
      * rewrite (Hall s (or_introl eq_refl) Hstatus). simpl.
        apply IH. intros s' Hin. apply Hall. right. exact Hin.
      * apply IH. intros s' Hin. apply Hall. right. exact Hin.
Qed.

(** The start date, when there is one, is the onboard date of a contracted
    site and is not empty. *)
Lemma getPortfolioStartDate_cases (tza : Z) (sites : list Site.t) :
  (List.filter isDatedContract sites = [] /\ getPortfolioStartDate tza sites = None)
  \/ (exists date s,
        getPortfolioStartDate tza sites = Some date
        /\ In s sites /\ isDatedContract s = true /\ Site.onboardDate s = Some date
        /\ JSString.truthy (Some date) = true).
Proof.
  unfold getPortfolioStartDate. fold isDatedContract.
  change (fun s => isContractedSite s && JSString.truthy (Site.onboardDate s))
    with isDatedContract.
  destruct (List.filter isDatedContract sites) as [|s0 dated] eqn:Hdated.
  - left. split; reflexivity.
  - right. cbn [length Nat.eqb].
    set (dates := map (fun s => default "" (Site.onboardDate s)) (s0 :: dated)).
    pose proof (sortDates_Permutation tza dates) as Hperm.
    destruct (sortDates tza dates) as [|date sorted] eqn:Hsorted.
    { apply Permutation_nil_l in Hperm. discriminate Hperm. }
    assert (Hin : In date dates).
    { apply list_elem_of_In. rewrite <- Hperm. left. }
    subst dates. apply in_map_iff in Hin as (s & Hdate & Hs).
    rewrite <- Hdated in Hs. apply filter_In in Hs as [Hs Hok].
    exists date, s. split; [reflexivity|]. split; [exact Hs|]. split; [exact Hok|].
    unfold isDatedContract in Hok. apply andb_true_iff in Hok as [_ Htruthy].
    destruct (Site.onboardDate s) as [d|]; [|discriminate Htruthy].
    simpl in Hdate. subst d. auto.
Qed.

(** X13. The tracking summary has a null start date exactly when no contracted
    site has an onboard date that is neither null nor the empty string: a
    contracted site whose onboard date is the empty string does not start the
    tracking. Otherwise the start date is the onboard date of a contracted
    site. *)
Theorem start_date_null_iff (tza clock : Z) (sites : list Site.t)
    (cmDaysUsage : list CMDaysUsage.t) :
  let summary := calculateCMDaysTracking tza clock sites cmDaysUsage in
  (CMDaysTrackingSummary.portfolioStartDate summary = None
   <-> forall s, In s sites -> Site.contractStatus s = Yes ->
                 Site.onboardDate s = None \/ Site.onboardDate s = Some "")
  /\ (forall date,
        CMDaysTrackingSummary.portfolioStartDate summary = Some date ->
        exists s, In s sites /\ Site.contractStatus s = Yes
                  /\ Site.onboardDate s = Some date).
Proof.
  intros summary. subst summary. unfold calculateCMDaysTracking.
  assert (Hfalsy : forall d : option string,
             JSString.truthy d = false <-> d = None \/ d = Some "").
  { intros [d|]; simpl; [|tauto].
    destruct (String.eqb_spec d ""); simpl; split; try tauto; try discriminate.
    - subst d. auto.
    - intros [H | [= H]]; [discriminate | contradiction]. }
  destruct (getPortfolioStartDate_cases tza sites)
    as [[Hempty ->] | (date & s & -> & Hin & Hok & Hdate & Htruthy)].
  - simpl. split; [|discriminate]. split; [|reflexivity].
    intros _ s Hs Hyes. apply Hfalsy.
    apply (proj1 (datedContracts_empty sites) Hempty s Hs Hyes).
  - rewrite Htruthy. cbn [negb].
    destruct (mapMonths _ _ _ _ _) as [entries st].
    cbn [CMDaysTrackingSummary.portfolioStartDate].
    unfold isDatedContract, isContractedSite in Hok.
    apply andb_true_iff in Hok as [Hyes Hdated].
    assert (Hyes' : Site.contractStatus s = Yes)
      by (destruct (Site.contractStatus s); [reflexivity | discriminate]).
    split.
    + split; [discriminate|]. intros Hall. exfalso.
      pose proof (proj2 (Hfalsy _) (Hall s Hin Hyes')) as Hno. congruence.
    + intros d [= <-]. exists s. auto.
Qed.

Lemma start_date_null_iff_witness :
  CMDaysTrackingSummary.portfolioStartDate
    (calculateCMDaysTracking 0 clockApril2024
       [prospectSite; contractedSince (Some ""); contractedSince None] []) = None.
Proof.
  apply (start_date_null_iff 0 clockApril2024
           [prospectSite; contractedSince (Some ""); contractedSince None] []).
  intros s [<- | [<- | [<- | []]]]; simpl; auto; discriminate.
Defined.

Lemma sortDates_head_minimal (tza : Z) (dates : list string) (h : string)
    (rest : list string) :
  (forall d, In d dates -> is_Some (JSString.parseDate tza d)) ->
  sortDates tza dates = h :: rest ->
  forall d, In d dates ->
    exists th td,
      JSString.parseDate tza h = Some th /\ JSString.parseDate tza d = Some td
      /\ (th <= td)%Z.
Proof.
  revert h rest. induction dates as [|a dates IH]; intros h rest Hvalid Hsorted;
    [intros d []|].
  destruct (Hvalid a (or_introl eq_refl)) as [ta Hta].
  change (sortDates tza (a :: dates)) with (insertSorted tza a (sortDates tza dates))
    in Hsorted.
  pose proof (sortDates_Permutation tza dates) as Hperm.
  destruct (sortDates tza dates) as [|b sorted] eqn:Hdates.
  - apply Permutation_nil_l in Hperm. subst dates.
    simpl in Hsorted. injection Hsorted as <- <-.
    intros d [<- | []]. exists ta, ta. repeat split; [exact Hta | exact Hta | lia].
  - assert (Hmin := IH b sorted (fun d Hd => Hvalid d (or_intror Hd)) eq_refl).
    assert (Hb : In b dates) by (apply list_elem_of_In; rewrite <- Hperm; left).
    destruct (Hmin b Hb) as (tb & _ & Htb & _ & _).
    simpl in Hsorted. unfold keepsBefore in Hsorted. rewrite Hta, Htb in Hsorted.
    destruct (Z.leb_spec (ta - tb) 0) as [Hle|Hgt].
    + injection Hsorted as <- <-. intros d [<- | Hd].
      * exists ta, ta. repeat split; [exact Hta | exact Hta | lia].
      * destruct (Hmin d Hd) as (tb' & td & Htb' & Htd & Hbd).
        exists ta, td. repeat split; [exact Hta | exact Htd |].
        rewrite Htb in Htb'. injection Htb' as <-. lia.
    + injection Hsorted as <- <-. intros d [<- | Hd].
      * exists tb, ta. repeat split; [exact Htb | exact Hta | lia].
      * exact (Hmin d Hd).
Qed.



(** ** Capacity of a month *)

Lemma split_no_separator (sep : ascii) (s : string) :
  (forall c, In c (String.list_ascii_of_string s) -> c <> sep) -> JSString.split sep s = [s].
Proof.
  induction s as [|c s IH]; [reflexivity|].
  intros Hno. simpl.
  destruct (Ascii.eqb_spec c sep) as [Heq|_].
  - exfalso. apply (Hno c); [left; reflexivity | exact Heq].
  - rewrite IH; [reflexivity|]. intros c' Hin. apply Hno. right. exact Hin.
Qed.

Lemma sumBy_filter_none {A : Type} (f : A -> float) (keep : A -> bool) (l : list A) :
  (forall a, keep a = false) -> sumBy f (List.filter keep l) = 0%float.
Proof.
  intros Hnone. replace (List.filter keep l) with (@nil A); [reflexivity|].
  induction l as [|a l IH]; [reflexivity|]. simpl. rewrite Hnone. exact IH.
Qed.

(** X15. For a key without a "-" the month is missing, the end-of-month date
    is invalid and the capacity is 0 whatever the sites: the function does
    not throw on a malformed key. *)
Theorem capacity_of_malformed_key (tza : Z) (sites : list Site.t) (yearMonth : string) :
  (forall c, In c (String.list_ascii_of_string yearMonth) -> c <> "-"%char) ->
  getContractedCapacityKwpForMonth tza sites yearMonth = 0%float.
Proof.
  intros Hno. unfold getContractedCapacityKwpForMonth.
  rewrite (split_no_separator _ _ Hno). cbn [map lookup list_lookup mjoin].
  apply sumBy_filter_none. intros s.
  destruct (negb (isContractedSite s) || negb (JSString.truthy (Site.onboardDate s)));
    [reflexivity|].
  unfold JSDate.construct. simpl.
  destruct (JSString.Number yearMonth);
    destruct (JSString.parseDate tza (default "" (Site.onboardDate s))); reflexivity.
Qed.

Lemma capacity_of_malformed_key_witness :
  getContractedCapacityKwpForMonth 0 [exampleSite; site15MW] "202403" = 0%float.
Proof.
  apply (capacity_of_malformed_key 0 [exampleSite; site15MW] "202403").
  intros c Hin. simpl in Hin.
  repeat (destruct Hin as [<- | Hin]; [discriminate|]). destruct Hin.
Defined.

(** ** The sequence of months *)

Section MonthSequence.
Local Open Scope Z_scope.

Lemma DayFromYear_mono (a b : Z) :
  a <= b -> JSDate.DayFromYear a <= JSDate.DayFromYear b.
Proof.
  intros Hab. unfold JSDate.DayFromYear. Z.to_euclidean_division_equations. lia.
Qed.

Lemma YearFromTime_unique (t y : Z) :
  JSDate.DayFromYear y <= JSDate.Day t < JSDate.DayFromYear (y + 1) ->
  JSDate.YearFromTime t = y.
Proof.
  intros Hy. pose proof (YearFromTime_spec t) as Hspec.
  set (y' := JSDate.YearFromTime t) in *. clearbody y'.
  destruct (Z.lt_trichotomy y' y) as [Hlt | [Heq | Hgt]]; [|exact Heq|].
  - pose proof (DayFromYear_mono (y' + 1) y ltac:(lia)). lia.
  - pose proof (DayFromYear_mono (y + 1) y' ltac:(lia)). lia.
Qed.

Lemma Day_MakeDate (day tod : Z) :
  0 <= tod < JSDate.msPerDay ->
  JSDate.Day (JSDate.MakeDate day tod) = day
  /\ JSDate.TimeWithinDay (JSDate.MakeDate day tod) = tod.
Proof.
  unfold JSDate.Day, JSDate.TimeWithinDay, JSDate.MakeDate, JSDate.msPerDay.
  intros Htod. Z.to_euclidean_division_equations. lia.
Qed.

Lemma TimeWithinDay_range (t : Z) : 0 <= JSDate.TimeWithinDay t < JSDate.msPerDay.
Proof. unfold JSDate.TimeWithinDay, JSDate.msPerDay. apply Z.mod_pos_bound. lia. Qed.

(** A time on the first day of month [m] of year [y] is read back as year
    [y], month [m], date 1. *)
Lemma first_of_month_fields (y m tod : Z) :
  0 <= m <= 11 -> 0 <= tod < JSDate.msPerDay ->
  let t := JSDate.MakeDate (JSDate.MakeDay y m 1) tod in
  JSDate.YearFromTime t = y /\ JSDate.MonthFromTime t = m /\ JSDate.DateFromTime t = 1.
Proof.
  intros Hm Htod t.
  destruct (Day_MakeDate (JSDate.MakeDay y m 1) tod Htod) as [Hday _].
  fold t in Hday.
  assert (Hmake : JSDate.MakeDay y m 1
                  = JSDate.DayFromYear y + JSDate.monthStart m (JSDate.isLeapYear y)).
  { unfold JSDate.MakeDay. rewrite Z.div_small, Z.mod_small by lia.
    rewrite Z.add_0_r. lia. }
  assert (Hstart : 0 <= JSDate.monthStart m (JSDate.isLeapYear y) <= 335).
  { unfold JSDate.monthStart.
    destruct (JSDate.isLeapYear y), m as [|[p|p|]|]; try lia;
      repeat (destruct p as [p|p|]; try lia). }
  assert (Hyear : JSDate.YearFromTime t = y).
  { apply YearFromTime_unique. rewrite Hday, Hmake, DayFromYear_succ.
    unfold JSDate.DaysInYear. destruct (JSDate.isLeapYear y); lia. }
  assert (Hwithin : JSDate.DayWithinYear t
                    = JSDate.monthStart m (JSDate.isLeapYear y)).
  { unfold JSDate.DayWithinYear. rewrite Hyear, Hday, Hmake. lia. }
  split; [exact Hyear|].
  assert (Hmonth : JSDate.MonthFromTime t = m).
  { unfold JSDate.MonthFromTime. rewrite Hwithin, Hyear.
    assert (Hcases : m = 0 \/ m = 1 \/ m = 2 \/ m = 3 \/ m = 4 \/ m = 5 \/ m = 6
                     \/ m = 7 \/ m = 8 \/ m = 9 \/ m = 10 \/ m = 11) by lia.
    destruct (JSDate.isLeapYear y);
      destruct Hcases as [-> | [-> | [-> | [-> | [-> | [-> | [-> | [-> | [-> | [-> | [-> | ->]]]]]]]]]]];
      reflexivity. }
  split; [exact Hmonth|].
  unfold JSDate.DateFromTime. rewrite Hmonth, Hyear, Hwithin. lia.
Qed.

(** [setDate(1)] keeps the local year and month and lands on date 1. *)
Lemma setDate_first (tza t0 s : Z) :
  JSDate.setDate tza (Some t0) 1 = Some s ->
  localMonth tza s = localMonth tza t0
  /\ JSDate.DateFromTime (JSDate.LocalTime tza s) = 1.
Proof.
  unfold JSDate.setDate, JSDate.TimeClip, localMonth.
  set (t := JSDate.LocalTime tza t0).
  destruct (Z.abs _ <=? 8640000000000000); [|discriminate]. intros [= <-].
  replace (JSDate.LocalTime tza
             (JSDate.UTC tza
                (JSDate.MakeDate
                   (JSDate.MakeDay (JSDate.YearFromTime t) (JSDate.MonthFromTime t) 1)
                   (JSDate.TimeWithinDay t))))
    with (JSDate.MakeDate
            (JSDate.MakeDay (JSDate.YearFromTime t) (JSDate.MonthFromTime t) 1)
            (JSDate.TimeWithinDay t))
    by (unfold JSDate.LocalTime, JSDate.UTC; lia).
  destruct (first_of_month_fields (JSDate.YearFromTime t) (JSDate.MonthFromTime t)
              (JSDate.TimeWithinDay t) (MonthFromTime_range t) (TimeWithinDay_range t))
    as (Hy & Hm & Hd).
  rewrite Hy, Hm. split; [reflexivity | exact Hd].
Qed.

Lemma MakeDay_nextMonth (y m : Z) :
  0 <= m <= 11 ->
  JSDate.MakeDay y (m + 1) 1 = JSDate.MakeDay (nextMonth (y, m)).1 (nextMonth (y, m)).2 1
  /\ 0 <= (nextMonth (y, m)).2 <= 11.
Proof.
  intros Hm. unfold nextMonth. cbn [fst snd].
  destruct (Z.eqb_spec m 11) as [->|Hne]; cbn [fst snd].
  - split; [|lia]. unfold JSDate.MakeDay.
    change ((11 + 1) / 12) with 1. change ((11 + 1) mod 12) with 0.
    change (0 / 12) with 0. change (0 mod 12) with 0.
    cbn [JSDate.monthStart]. rewrite !Z.add_0_r. reflexivity.
  - split; [reflexivity | lia].
Qed.

(** [setMonth(getMonth() + 1)] on a first of the month lands on the first of
    the next calendar month. *)
Lemma setMonth_next (tza s s' : Z) :
  JSDate.DateFromTime (JSDate.LocalTime tza s) = 1 ->
  JSDate.setMonth tza (Some s)
    (Some (JSDate.MonthFromTime (JSDate.LocalTime tza s) + 1)) = Some s' ->
  localMonth tza s' = nextMonth (localMonth tza s)
  /\ JSDate.DateFromTime (JSDate.LocalTime tza s') = 1.
Proof.
  intros Hfirst. unfold JSDate.setMonth, JSDate.TimeClip, localMonth.
  set (t := JSDate.LocalTime tza s) in *. rewrite Hfirst.
  destruct (Z.abs _ <=? 8640000000000000); [|discriminate]. intros [= <-].
  replace (JSDate.LocalTime tza
             (JSDate.UTC tza
                (JSDate.MakeDate
                   (JSDate.MakeDay (JSDate.YearFromTime t) (JSDate.MonthFromTime t + 1) 1)
                   (JSDate.TimeWithinDay t))))
    with (JSDate.MakeDate
            (JSDate.MakeDay (JSDate.YearFromTime t) (JSDate.MonthFromTime t + 1) 1)
            (JSDate.TimeWithinDay t))
    by (unfold JSDate.LocalTime, JSDate.UTC; lia).
  destruct (MakeDay_nextMonth (JSDate.YearFromTime t) (JSDate.MonthFromTime t)
              (MonthFromTime_range t)) as [-> Hrange].
  destruct (first_of_month_fields
              (nextMonth (JSDate.YearFromTime t, JSDate.MonthFromTime t)).1
              (nextMonth (JSDate.YearFromTime t, JSDate.MonthFromTime t)).2
              (JSDate.TimeWithinDay t) Hrange (TimeWithinDay_range t)) as (Hy & Hm & Hd).
  rewrite Hy, Hm. split; [|exact Hd].
  destruct (nextMonth (JSDate.YearFromTime t, JSDate.MonthFromTime t)); reflexivity.
Qed.

Lemma monthsLoop_consecutive (tza : Z) (fuel : nat) (start now : Z) :
  JSDate.DateFromTime (JSDate.LocalTime tza start) = 1 ->
  exists n, monthsLoop tza fuel start now
            = map monthKey (monthsFrom (localMonth tza start) n).
Proof.
  revert start. induction fuel as [|fuel IH]; intros start Hfirst.
  - exists 0%nat. reflexivity.
  - cbn [monthsLoop]. destruct (start <=? now); [|exists 0%nat; reflexivity].
    destruct (JSDate.setMonth tza (Some start)
                (Some (JSDate.MonthFromTime (JSDate.LocalTime tza start) + 1)))
      as [start'|] eqn:Hset.
    + destruct (setMonth_next tza start start' Hfirst Hset) as [Hnext Hfirst'].
      destruct (IH start' Hfirst') as [n Hn].
      exists (S n). rewrite Hn, Hnext. reflexivity.
    + exists 1%nat. reflexivity.
Qed.

End MonthSequence.

(** X16. The month keys of a tracking run are consecutive calendar months,
    each key following the one before with no gap and no repetition, and the
    first key is the month the start date falls in, in the local time of the
    host. *)
Theorem months_are_consecutive (tza clock : Z) (startDate : string) (t0 : Z) :
  JSString.parseDate tza startDate = Some t0 ->
  exists n,
    getMonthsFromStart tza clock startDate
    = map monthKey (monthsFrom (localMonth tza t0) n).
Proof.
  intros Hparse. unfold getMonthsFromStart. rewrite Hparse.
  destruct (JSDate.setDate tza (Some t0) 1) as [s|] eqn:Hs;
    [|exists 0%nat; reflexivity].
  destruct (JSDate.setDate tza (JSDate.TimeClip clock) 1) as [n|];
    [|exists 0%nat; reflexivity].
  destruct (setDate_first tza t0 s Hs) as [<- Hfirst].
  apply monthsLoop_consecutive. exact Hfirst.
Qed.

Lemma months_are_consecutive_witness :
  exists n,
    getMonthsFromStart 0 clockApril2024 "2023-11-20"
    = map monthKey (monthsFrom (2023, 10)%Z n)
    /\ n = 6%nat.
Proof.
  destruct (months_are_consecutive 0 clockApril2024 "2023-11-20" 1700438400000 eq_refl)
    as [n Hn].
  exists n. split; [exact Hn|].
  apply (f_equal length) in Hn. rewrite length_map in Hn.
  vm_compute in Hn.
  assert (Hlen : forall ym k, length (monthsFrom ym k) = k)
    by (intros ym k; revert ym; induction k; intros ym; simpl; [|rewrite IHk]; reflexivity).
  rewrite Hlen in Hn. symmetry. exact Hn.
Defined.

(** ** Month keys written and read *)

Lemma string_of_uint_digits (d : Decimal.uint) (c : ascii) :
  In c (String.list_ascii_of_string (NilEmpty.string_of_uint d)) -> c <> "-"%char.
Proof.
  induction d; simpl; intros H; try (destruct H as [<- | H]; [discriminate | auto]).
  destruct H.
Qed.

Lemma Number_string_of_uint (d : Decimal.uint) :
  JSString.Number (NilEmpty.string_of_uint d) = Some (Z.of_uint d).
Proof.
  unfold JSString.Number. rewrite NilEmpty.usu.
  destruct (String.eqb_spec (NilEmpty.string_of_uint d) "") as [Hempty|_];
    [|reflexivity].
  destruct d; try discriminate Hempty. reflexivity.
Qed.

(** A year from 0 upwards is written with digits only and read back. *)
Lemma ofInteger_nonneg (y : Z) :
  (0 <= y)%Z ->
  JSString.Number (JSString.ofInteger y) = Some y
  /\ forall c, In c (String.list_ascii_of_string (JSString.ofInteger y)) -> c <> "-"%char.
Proof.
  intros Hy. unfold JSString.ofInteger.
  destruct y as [|p|p]; [split; [reflexivity|] | | lia].
  - intros c [<- | []]. discriminate.
  - pose proof (DecimalZ.of_to (Z.pos p)) as Hback.
    cbn [Z.to_int Z.of_int] in Hback. cbn [Z.to_int NilZero.string_of_int].
    assert (Hsame : NilZero.string_of_uint (Pos.to_uint p)
                    = NilEmpty.string_of_uint (Pos.to_uint p)).
    { pose proof (Unsigned.to_uint_nonnil p) as Hnonnil.
      destruct (Pos.to_uint p); [contradiction | reflexivity ..]. }
    rewrite Hsame, Number_string_of_uint, Hback.
    split; [reflexivity | apply string_of_uint_digits].
Qed.

Lemma split_before_separator (sep : ascii) (s rest : string) :
  (forall c, In c (String.list_ascii_of_string s) -> c <> sep) ->
  JSString.split sep (s +:+ String sep rest) = s :: JSString.split sep rest.
Proof.
  induction s as [|c s IH]; intros Hno.
  - simpl. rewrite Ascii.eqb_refl. reflexivity.
  - simpl. destruct (Ascii.eqb_spec c sep) as [Heq|_].
    + exfalso. apply (Hno c); [left; reflexivity | exact Heq].
    + rewrite IH; [reflexivity|]. intros c' Hin. apply Hno. right. exact Hin.
Qed.

(** X17. A month key written by [getMonthsFromStart] for a year from 0
    upwards is read back by [getContractedCapacityKwpForMonth] as the same
    year and the same month, numbered from 1. *)
Theorem month_key_round_trip (y m : Z) :
  (0 <= y)%Z -> (0 <= m <= 11)%Z ->
  map JSString.Number (JSString.split "-" (monthKey (y, m))) = [Some y; Some (m + 1)%Z].
Proof.
  intros Hy Hm. destruct (ofInteger_nonneg y Hy) as [Hnum Hdigits].
  unfold monthKey. cbn [fst snd].
  change ("-" +:+ JSString.padStart2 (JSString.ofInteger (m + 1)))
    with (String "-" (JSString.padStart2 (JSString.ofInteger (m + 1)))).
  rewrite (split_before_separator _ _ _ Hdigits). cbn [map]. rewrite Hnum. f_equal.
  assert (Hcases : (m = 0 \/ m = 1 \/ m = 2 \/ m = 3 \/ m = 4 \/ m = 5 \/ m = 6
                    \/ m = 7 \/ m = 8 \/ m = 9 \/ m = 10 \/ m = 11)%Z) by lia.
  destruct Hcases as [-> | [-> | [-> | [-> | [-> | [-> | [-> | [-> | [-> | [-> | [-> | ->]]]]]]]]]]];
    reflexivity.
Qed.

Lemma month_key_round_trip_witness :
  monthKey (2024, 1)%Z = "2024-02"
  /\ map JSString.Number (JSString.split "-" "2024-02") = [Some 2024%Z; Some 2%Z].
Proof.
  split; [reflexivity|].
  apply (month_key_round_trip 2024 1); lia.
Defined.

Lemma filter_ext_bool {A : Type} (f g : A -> bool) (l : list A) :
  (forall a, f a = g a) -> List.filter f l = List.filter g l.
Proof.
  intros Hfg. induction l as [|a l IH]; [reflexivity|]. simpl. rewrite Hfg, IH. reflexivity.
Qed.



(** ** The extent of the series *)

Section SeriesExtent.
Local Open Scope Z_scope.

Lemma DayWithinYear_range (t : Z) :
  0 <= JSDate.DayWithinYear t < JSDate.DaysInYear (JSDate.YearFromTime t).
Proof.
  unfold JSDate.DayWithinYear. pose proof (YearFromTime_spec t) as H.
  rewrite DayFromYear_succ in H. lia.
Qed.

Lemma DateFromTime_range (t : Z) : 1 <= JSDate.DateFromTime t <= 31.
Proof.
  pose proof (DayWithinYear_range t) as Hd.
  unfold JSDate.DateFromTime, JSDate.MonthFromTime, JSDate.DaysInYear in *.
  set (d := JSDate.DayWithinYear t) in *. clearbody d.
  destruct (JSDate.isLeapYear (JSDate.YearFromTime t));
    cbn [JSDate.monthStart] in *;
    repeat match goal with
      | |- context [if (?a <? ?b) then _ else _] => destruct (Z.ltb_spec a b)
      end; cbn [JSDate.monthStart]; lia.
Qed.

(** The day a first of the month falls on, by the index of the month. *)
Lemma MakeDay_by_index (ym : Z * Z) :
  0 <= ym.2 <= 11 -> JSDate.MakeDay ym.1 ym.2 1 = JSDate.MakeDay 0 (monthIndex ym) 1.
Proof.
  destruct ym as [y m]. unfold monthIndex, JSDate.MakeDay. cbn [fst snd]. intros Hm.
  replace (m / 12) with 0 by (Z.to_euclidean_division_equations; lia).
  replace (m mod 12) with m by (Z.to_euclidean_division_equations; lia).
  replace ((12 * y + m) / 12) with y by (Z.to_euclidean_division_equations; lia).
  replace ((12 * y + m) mod 12) with m by (Z.to_euclidean_division_equations; lia).
  rewrite Z.add_0_r. reflexivity.
Qed.

Lemma MakeDay_index_step (i : Z) :
  JSDate.MakeDay 0 i 1 + 28 <= JSDate.MakeDay 0 (i + 1) 1 <= JSDate.MakeDay 0 i 1 + 31.
Proof.
  assert (Hm : 0 <= i mod 12 <= 11) by (Z.to_euclidean_division_equations; lia).
  pose proof (MakeDay_by_index (i / 12, i mod 12) Hm) as Hidx.
  replace (monthIndex (i / 12, i mod 12)) with i in Hidx
    by (unfold monthIndex; cbn [fst snd]; Z.to_euclidean_division_equations; lia).
  rewrite <- Hidx.
  replace (JSDate.MakeDay 0 (i + 1) 1)
    with (JSDate.MakeDay (i / 12) (i mod 12 + 1) 1).
  2:{ unfold JSDate.MakeDay. f_equal. f_equal.
      assert (Hq : i / 12 + (i mod 12 + 1) / 12 = 0 + (i + 1) / 12)
        by (Z.to_euclidean_division_equations; lia).
      assert (Hr : (i mod 12 + 1) mod 12 = (i + 1) mod 12)
        by (Z.to_euclidean_division_equations; lia).
      rewrite Hq, Hr. reflexivity. }
  cbn [fst snd]. set (y := i / 12). set (m := i mod 12) in *. clearbody y m.
  assert (Hcases : m = 0 \/ m = 1 \/ m = 2 \/ m = 3 \/ m = 4 \/ m = 5 \/ m = 6 \/ m = 7
                   \/ m = 8 \/ m = 9 \/ m = 10 \/ m = 11) by lia.
  unfold JSDate.MakeDay.
  destruct Hcases as [-> | [-> | [-> | [-> | [-> | [-> | [-> | [-> | [-> | [-> | [-> | ->]]]]]]]]]]];
    repeat match goal with
      | |- context [(?a / ?b)] =>
          let v := eval vm_compute in (a / b) in change (a / b) with v
      | |- context [(?a mod ?b)] =>
          let v := eval vm_compute in (a mod b) in change (a mod b) with v
      end;
    cbn [JSDate.monthStart];
    rewrite ?Z.add_0_r, ?DayFromYear_succ; unfold JSDate.DaysInYear;
    destruct (JSDate.isLeapYear y); lia.
Qed.

Lemma MakeDay_index_growth (i : Z) (k : nat) :
  JSDate.MakeDay 0 i 1 + 28 * Z.of_nat k <= JSDate.MakeDay 0 (i + Z.of_nat k) 1.
Proof.
  induction k as [|k IH]; [replace (i + Z.of_nat 0) with i by lia; lia|].
  pose proof (MakeDay_index_step (i + Z.of_nat k)) as Hstep.
  replace (i + Z.of_nat (S k)) with (i + Z.of_nat k + 1) by lia. lia.
Qed.

Lemma MakeDay_index_lt (i j : Z) :
  i < j -> JSDate.MakeDay 0 i 1 + 28 <= JSDate.MakeDay 0 j 1.
Proof.
  intros Hij. pose proof (MakeDay_index_growth i (Z.to_nat (j - i))) as H.
  rewrite Z2Nat.id in H by lia. replace (i + (j - i)) with j in H by lia. lia.
Qed.

Lemma monthIndex_nextMonth (ym : Z * Z) :
  0 <= ym.2 <= 11 ->
  monthIndex (nextMonth ym) = monthIndex ym + 1 /\ 0 <= (nextMonth ym).2 <= 11.
Proof.
  destruct ym as [y m]. unfold monthIndex, nextMonth. cbn [fst snd]. intros Hm.
  destruct (Z.eqb_spec m 11); cbn [fst snd]; lia.
Qed.

(** The local time of a first of the month, by the index of its month. *)
Lemma first_of_month_local (tza s : Z) :
  JSDate.DateFromTime (JSDate.LocalTime tza s) = 1 ->
  JSDate.LocalTime tza s
  = JSDate.MakeDay 0 (monthIndex (localMonth tza s)) 1 * JSDate.msPerDay
    + localTimeOfDay tza s.
Proof.
  intros Hfirst. unfold localMonth, localTimeOfDay.
  set (t := JSDate.LocalTime tza s) in *.
  rewrite <- (MakeDay_by_index (JSDate.YearFromTime t, JSDate.MonthFromTime t))
    by (apply MonthFromTime_range).
  cbn [fst snd]. rewrite <- Hfirst, <- Day_MakeDay.
  unfold JSDate.Day, JSDate.TimeWithinDay, JSDate.msPerDay.
  Z.to_euclidean_division_equations. lia.
Qed.

Lemma LocalTime_UTC (tza t : Z) : JSDate.LocalTime tza (JSDate.UTC tza t) = t.
Proof. unfold JSDate.LocalTime, JSDate.UTC. lia. Qed.

Lemma setMonth_time_of_day (tza s s' : Z) :
  JSDate.setMonth tza (Some s)
    (Some (JSDate.MonthFromTime (JSDate.LocalTime tza s) + 1)) = Some s' ->
  localTimeOfDay tza s' = localTimeOfDay tza s.
Proof.
  unfold JSDate.setMonth, JSDate.TimeClip, localTimeOfDay.
  set (t := JSDate.LocalTime tza s).
  destruct (Z.abs _ <=? 8640000000000000); [|discriminate]. intros [= <-].
  rewrite LocalTime_UTC.
  apply Day_MakeDate, TimeWithinDay_range.
Qed.

Lemma setDate_value_bounds (tza t0 : Z) :
  let t := JSDate.LocalTime tza t0 in
  t0 - 30 * JSDate.msPerDay
  <= JSDate.UTC tza
       (JSDate.MakeDate (JSDate.MakeDay (JSDate.YearFromTime t) (JSDate.MonthFromTime t) 1)
          (JSDate.TimeWithinDay t))
  <= t0.
Proof.
  intros t.
  pose proof (DateFromTime_range t) as Hd. pose proof (Day_MakeDay t) as Hday.
  assert (Hmake : JSDate.MakeDay (JSDate.YearFromTime t) (JSDate.MonthFromTime t)
                    (JSDate.DateFromTime t)
                  = JSDate.MakeDay (JSDate.YearFromTime t) (JSDate.MonthFromTime t) 1
                    + (JSDate.DateFromTime t - 1))
    by (unfold JSDate.MakeDay; lia).
  assert (Ht : t = JSDate.Day t * JSDate.msPerDay + JSDate.TimeWithinDay t).
  { unfold JSDate.Day, JSDate.TimeWithinDay, JSDate.msPerDay.
    Z.to_euclidean_division_equations. lia. }
  assert (Ht0 : t0 = t - tza) by (subst t; unfold JSDate.LocalTime; lia).
  unfold JSDate.UTC, JSDate.MakeDate, JSDate.msPerDay in *. lia.
Qed.

Lemma setDate_time_of_day (tza t0 s : Z) :
  JSDate.setDate tza (Some t0) 1 = Some s ->
  localTimeOfDay tza s = localTimeOfDay tza t0
  /\ t0 - 30 * JSDate.msPerDay <= s <= t0.
Proof.
  unfold JSDate.setDate, JSDate.TimeClip, localTimeOfDay.
  set (t := JSDate.LocalTime tza t0).
  destruct (Z.abs _ <=? 8640000000000000); [|discriminate]. intros [= <-].
  rewrite LocalTime_UTC.
  split; [apply Day_MakeDate, TimeWithinDay_range|].
  pose proof (DateFromTime_range t) as Hd. pose proof (Day_MakeDay t) as Hday.
  assert (Hmake : JSDate.MakeDay (JSDate.YearFromTime t) (JSDate.MonthFromTime t)
                    (JSDate.DateFromTime t)
                  = JSDate.MakeDay (JSDate.YearFromTime t) (JSDate.MonthFromTime t) 1
                    + (JSDate.DateFromTime t - 1))
    by (unfold JSDate.MakeDay; lia).
  assert (Ht : t = JSDate.Day t * JSDate.msPerDay + JSDate.TimeWithinDay t).
  { unfold JSDate.Day, JSDate.TimeWithinDay, JSDate.msPerDay.
    Z.to_euclidean_division_equations. lia. }
  assert (Ht0 : t0 = t - tza) by (subst t; unfold JSDate.LocalTime; lia).
  unfold JSDate.UTC, JSDate.MakeDate, JSDate.msPerDay in *. lia.
Qed.

Lemma setDate_succeeds (tza t0 : Z) :
  - 8640000000000000 + 30 * JSDate.msPerDay <= t0 <= 8640000000000000 ->
  exists s, JSDate.setDate tza (Some t0) 1 = Some s.
Proof.
  intros Hrange. unfold JSDate.setDate.
  set (x := JSDate.UTC tza _).
  destruct (JSDate.TimeClip x) as [s|] eqn:Hclip; [exists s; reflexivity|].
  exfalso. unfold JSDate.TimeClip in Hclip.
  destruct (Z.leb_spec (Z.abs x) 8640000000000000); [discriminate|].
  assert (Hbound : t0 - 30 * JSDate.msPerDay <= x <= t0).
  { assert (Hset : JSDate.setDate tza (Some t0) 1 = JSDate.TimeClip x) by reflexivity.
    subst x. clear Hclip H. revert Hset. unfold JSDate.TimeClip.
    set (x := JSDate.UTC tza _). intros _.
    pose proof (setDate_value_bounds tza t0) as Hb. exact Hb. }
  unfold JSDate.msPerDay in *. lia.
Qed.

(** Two firsts of the month are ordered by month, then by time of day. *)
Lemma first_of_month_le (tza s n : Z) :
  JSDate.DateFromTime (JSDate.LocalTime tza s) = 1 ->
  JSDate.DateFromTime (JSDate.LocalTime tza n) = 1 ->
  s <= n <->
  monthIndex (localMonth tza s) < monthIndex (localMonth tza n)
  \/ (monthIndex (localMonth tza s) = monthIndex (localMonth tza n)
      /\ localTimeOfDay tza s <= localTimeOfDay tza n).
Proof.
  intros Hs Hn.
  pose proof (first_of_month_local tza s Hs) as Es.
  pose proof (first_of_month_local tza n Hn) as En.
  pose proof (TimeWithinDay_range (JSDate.LocalTime tza s)) as Rs.
  pose proof (TimeWithinDay_range (JSDate.LocalTime tza n)) as Rn.
  fold (localTimeOfDay tza s) in Rs. fold (localTimeOfDay tza n) in Rn.
  set (i := monthIndex (localMonth tza s)) in *.
  set (j := monthIndex (localMonth tza n)) in *.
  set (a := localTimeOfDay tza s) in *. set (b := localTimeOfDay tza n) in *.
  clearbody i j a b. unfold JSDate.LocalTime, JSDate.msPerDay in *.
  destruct (Z.lt_trichotomy i j) as [Hlt | [-> | Hgt]].
  - pose proof (MakeDay_index_lt i j Hlt). split; [left|]; lia.
  - split; [right|]; lia.
  - pose proof (MakeDay_index_lt j i Hgt). split; lia.
Qed.

(** The date [setMonth(getMonth() + 1)] computes from a first of the month. *)
Lemma setMonth_first_value (tza s : Z) :
  JSDate.DateFromTime (JSDate.LocalTime tza s) = 1 ->
  JSDate.setMonth tza (Some s)
    (Some (JSDate.MonthFromTime (JSDate.LocalTime tza s) + 1))
  = JSDate.TimeClip
      (JSDate.UTC tza
         (JSDate.MakeDate (JSDate.MakeDay 0 (monthIndex (localMonth tza s) + 1) 1)
            (localTimeOfDay tza s))).
Proof.
  intros Hfirst. unfold JSDate.setMonth, localMonth, localTimeOfDay.
  set (t := JSDate.LocalTime tza s) in *. rewrite Hfirst.
  destruct (MakeDay_nextMonth (JSDate.YearFromTime t) (JSDate.MonthFromTime t)
              (MonthFromTime_range t)) as [-> Hrange].
  rewrite (MakeDay_by_index _ Hrange).
  destruct (monthIndex_nextMonth (JSDate.YearFromTime t, JSDate.MonthFromTime t)
              (MonthFromTime_range t)) as [-> _].
  reflexivity.
Qed.

Lemma monthsLoop_count (tza : Z) (fuel : nat) (start now : Z) :
  JSDate.DateFromTime (JSDate.LocalTime tza start) = 1 ->
  JSDate.DateFromTime (JSDate.LocalTime tza now) = 1 ->
  - 8640000000000000 <= start ->
  now <= 8640000000000000 - 31 * JSDate.msPerDay ->
  (monthsCounted tza now start <= fuel)%nat ->
  monthsLoop tza fuel start now
  = map monthKey (monthsFrom (localMonth tza start) (monthsCounted tza now start)).
Proof.
  intros Hs Hn. revert start Hs.
  induction fuel as [|fuel IH]; intros start Hs Hlow Hhigh Hfuel.
  - replace (monthsCounted tza now start) with 0%nat by lia. reflexivity.
  - cbn [monthsLoop]. pose proof (first_of_month_le tza start now Hs Hn) as Hle.
    destruct (Z.leb_spec start now) as [Hsn|Hsn].
    + rewrite (setMonth_first_value tza start Hs).
      pose proof (first_of_month_local tza start Hs) as Es.
      pose proof (MakeDay_index_step (monthIndex (localMonth tza start))) as Hstep.
      pose proof (setMonth_first_value tza start Hs) as Hset.
      set (x := JSDate.UTC tza
                  (JSDate.MakeDate
                     (JSDate.MakeDay 0 (monthIndex (localMonth tza start) + 1) 1)
                     (localTimeOfDay tza start))) in *.
      assert (Hx : start + 28 * JSDate.msPerDay <= x <= start + 31 * JSDate.msPerDay).
      { subst x. unfold JSDate.UTC, JSDate.MakeDate, JSDate.LocalTime, JSDate.msPerDay in *.
        lia. }
      assert (Hclip : JSDate.TimeClip x = Some x).
      { unfold JSDate.TimeClip. destruct (Z.leb_spec (Z.abs x) 8640000000000000);
          [reflexivity | unfold JSDate.msPerDay in *; lia]. }
      rewrite Hclip in *.
      destruct (setMonth_next tza start x Hs Hset) as [Hnext Hfirst].
      pose proof (setMonth_time_of_day tza start x Hset) as Htod.
      destruct (monthIndex_nextMonth (localMonth tza start)
                  (MonthFromTime_range _)) as [Hidx _].
      rewrite <- Hnext in Hidx.
      assert (Hcount : monthsCounted tza now start = S (monthsCounted tza now x)).
      { unfold monthsCounted. rewrite Htod, Hidx.
        destruct (Z.leb_spec (localTimeOfDay tza start) (localTimeOfDay tza now)); lia. }
      rewrite Hcount in *. cbn [monthsFrom map]. f_equal.
      rewrite <- Hnext. apply IH; [exact Hfirst | unfold JSDate.msPerDay in *; lia
                                  | exact Hhigh | lia].
    + replace (monthsCounted tza now start) with 0%nat; [reflexivity|].
      unfold monthsCounted.
      destruct (Z.leb_spec (localTimeOfDay tza start) (localTimeOfDay tza now)); lia.
Qed.

End SeriesExtent.



(** ** Sites the reconciler reads *)

Lemma filter_filter_implied {A : Type} (f g : A -> bool) (l : list A) :
  (forall a, g a = true -> f a = true) ->
  List.filter g (List.filter f l) = List.filter g l.
Proof.
  intros Himp. induction l as [|a l IH]; [reflexivity|].
  cbn [List.filter]. destruct (f a) eqn:Hf.
  - cbn [List.filter]. rewrite IH. reflexivity.
  - rewrite IH. destruct (g a) eqn:Hg; [|reflexivity].
    rewrite (Himp a Hg) in Hf. discriminate.
Qed.

Lemma getPortfolioStartDate_dated (tza : Z) (sites : list Site.t) :
  getPortfolioStartDate tza (List.filter isDatedContract sites)
  = getPortfolioStartDate tza sites.
Proof.
  unfold getPortfolioStartDate.
  change (fun s => isContractedSite s && JSString.truthy (Site.onboardDate s))
    with isDatedContract.
  rewrite filter_filter_implied by auto. reflexivity.
Qed.

Lemma getContractedCapacityKwpForMonth_dated (tza : Z) (sites : list Site.t)
    (yearMonth : string) :
  getContractedCapacityKwpForMonth tza (List.filter isDatedContract sites) yearMonth
  = getContractedCapacityKwpForMonth tza sites yearMonth.
Proof.
  unfold getContractedCapacityKwpForMonth. rewrite filter_filter_implied; [reflexivity|].
  intros s. unfold isDatedContract.
  destruct (isContractedSite s), (JSString.truthy (Site.onboardDate s));
    cbn [negb orb andb]; intros H; first [reflexivity | discriminate H].
Qed.

Lemma mapMonths_sites_ext (tza : Z) (sites sites' : list Site.t)
    (usageMap : gmap string float) (st : running) (months : list string) :
  (forall yearMonth,
      getContractedCapacityKwpForMonth tza sites yearMonth
      = getContractedCapacityKwpForMonth tza sites' yearMonth) ->
  mapMonths tza sites usageMap st months = mapMonths tza sites' usageMap st months.
Proof.
  intros Hcap. revert st. induction months as [|ym months IH]; intros st; [reflexivity|].
  cbn [mapMonths]. unfold monthStep. rewrite Hcap, IH. reflexivity.
Qed.

(** X20. The tracking summary reads only the contracted sites whose onboard
    date is neither null nor empty: dropping every other site from the list
    changes nothing in the summary. *)
Theorem tracking_reads_dated_contracts (tza clock : Z) (sites : list Site.t)
    (cmDaysUsage : list CMDaysUsage.t) :
  calculateCMDaysTracking tza clock (List.filter isDatedContract sites) cmDaysUsage
  = calculateCMDaysTracking tza clock sites cmDaysUsage.
Proof.
  unfold calculateCMDaysTracking. rewrite getPortfolioStartDate_dated.
  destruct (negb (JSString.truthy (getPortfolioStartDate tza sites))); [reflexivity|].
  rewrite (mapMonths_sites_ext tza (List.filter isDatedContract sites) sites)
    by (apply getContractedCapacityKwpForMonth_dated).
  reflexivity.
Qed.
